(** * Smart traffic signal control: a four-lane intersection

    A shallow embedding of the simulation program (one C translation unit)
    and the verification of its specification.

    - [int] is 32 bits wide and [long] 64 bits wide (LP64).  Both are
      modelled as [Z] and every arithmetic operation of the source is
      followed by the reduction into the signed range of its type.  ISO C
      leaves signed overflow undefined; the model fixes the two's
      complement wrap-around that the usual targets (and CompCert's C
      semantics) give it.
    - The lane array [it->lanes] is a [list Lane]; [create_intersection]
      allocates [LANES] entries and every loop of the program stays below
      [LANES], so an index is out of range only for a list that
      [create_intersection] cannot build (the update then does nothing).
    - [double] is IEEE-754 binary64, modelled by [spec_float] with
      precision 53 and maximal exponent 1024.
    - [rand], [scanf], [malloc] and [fopen] belong to the C library: the
      program is modelled over their outcomes. *)

From Stdlib Require Import ZArith Lia Bool String QArith Qabs Qpower.
From Stdlib Require Import Floats.SpecFloat.
From stdpp Require Import base list.

Local Open Scope Z_scope.

(** ** Machine integers *)

Module MachInt.

(** Reduction of [x] into the signed range of a [bits]-bit integer. *)
Definition wrap (bits : Z) (x : Z) : Z :=
  (x + 2 ^ (bits - 1)) mod 2 ^ bits - 2 ^ (bits - 1).

Definition INT_MIN : Z := -2147483648.
Definition INT_MAX : Z := 2147483647.
Definition LONG_MIN : Z := -9223372036854775808.
Definition LONG_MAX : Z := 9223372036854775807.

Definition is_int (x : Z) : Prop := INT_MIN <= x <= INT_MAX.
Definition is_long (x : Z) : Prop := LONG_MIN <= x <= LONG_MAX.

Definition int_add (x y : Z) : Z := wrap 32 (x + y).
Definition int_sub (x y : Z) : Z := wrap 32 (x - y).
Definition int_mul (x y : Z) : Z := wrap 32 (x * y).
Definition long_add (x y : Z) : Z := wrap 64 (x + y).

End MachInt.
Import MachInt.

(** ** Constants and data *)

Definition LANES : nat := 4.
Definition MAX_GREEN : Z := 40.
Definition BASE_GREEN : Z := 5.
Definition VEHICLE_PASS_PER_SEC : Z := 1.

Record Lane : Type := mkLane {
  vehicles : Z;          (* int: vehicles currently waiting *)
  total_wait_secs : Z;   (* long: accumulated waiting seconds *)
  vehicles_served : Z    (* long: total vehicles passed through *)
}.

Record Intersection : Type := mkIntersection {
  name : string;         (* char name[64] *)
  lanes : list Lane;     (* Lane *lanes, LANES entries *)
  cycles : Z             (* int: number of simulation cycles run *)
}.

Definition set_lanes (ls : list Lane) (it : Intersection) : Intersection :=
  {| name := name it; lanes := ls; cycles := cycles it |}.

Definition set_cycles (c : Z) (it : Intersection) : Intersection :=
  {| name := name it; lanes := lanes it; cycles := c |}.

Definition zero_lane : Lane :=
  {| vehicles := 0; total_wait_secs := 0; vehicles_served := 0 |}.

(** [it->lanes[i]] read as an rvalue. *)
Definition lane_at (it : Intersection) (i : nat) : Lane :=
  default zero_lane (lanes it !! i).

(** An in-place update of [it->lanes[i]]. *)
Definition update_lane (i : nat) (f : Lane -> Lane) (it : Intersection)
  : Intersection :=
  set_lanes (alter f i (lanes it)) it.

(** [for (int i = start; i < start + n; ++i) body(i)] over a state. *)
Fixpoint for_loop {St : Type} (n : nat) (start : nat)
    (body : nat -> St -> St) (s : St) : St :=
  match n with
  | O => s
  | S n' => for_loop n' (S start) body (body start s)
  end.

(** ** Green-time policy *)

Definition calculate_green_time (vehicles_waiting : Z) : Z :=
  let t := int_add BASE_GREEN (int_mul 2 vehicles_waiting) in
  if MAX_GREEN <? t then MAX_GREEN else t.

(** The specification's wording: the formula clamped to
    [[BASE_GREEN, MAX_GREEN]], over the integers. *)
Definition green_time_spec (w : Z) : Z :=
  Z.max BASE_GREEN (Z.min MAX_GREEN (BASE_GREEN + 2 * w)).

(** The largest and the smallest argument for which neither [2 * w] nor
    [BASE_GREEN + 2 * w] leaves the range of [int]. *)
Definition GREEN_ARG_MAX : Z := 1073741821.
Definition GREEN_ARG_MIN : Z := -1073741824.

(** ** Creation *)

(** The allocated intersection: [strncpy(it->name, name, 63)] followed by
    the terminating zero, [LANES] lanes that the initialisation loop zeroes,
    no cycle run. *)
Definition new_intersection (nm : string) : Intersection :=
  {| name := substring 0 63 nm;
     lanes := for_loop LANES 0 (fun i ls => <[i := zero_lane]> ls)
                (replicate LANES zero_lane);
     cycles := 0 |}.

(** ** Cycle executor *)

(** Lines 82-86: one vehicle leaves the green lane. *)
Definition pass_vehicle (l : Lane) : Lane :=
  if 0 <? vehicles l then
    let v := int_sub (vehicles l) VEHICLE_PASS_PER_SEC in
    let v := if v <? 0 then 0 else v in
    {| vehicles := v;
       total_wait_secs := total_wait_secs l;
       vehicles_served := long_add (vehicles_served l) VEHICLE_PASS_PER_SEC |}
  else l.

(** Lines 90-93: a lane that is not green accrues its queue depth. *)
Definition accrue_wait (l : Lane) : Lane :=
  if 0 <? vehicles l then
    {| vehicles := vehicles l;
       total_wait_secs := long_add (total_wait_secs l) (vehicles l);
       vehicles_served := vehicles_served l |}
  else l.

(** The body of the [sec] loop: one simulated second of lane [lane_idx]'s
    green. *)
Definition tick (lane_idx : nat) (it : Intersection) : Intersection :=
  let it := update_lane lane_idx pass_vehicle it in
  for_loop LANES 0
    (fun j it => if Nat.eqb j lane_idx then it else update_lane j accrue_wait it)
    it.

(** What one second of lane [lane_idx]'s green does to lane [j]: the
    pointwise reading of [tick]. *)
Definition tick_lane (lane_idx j : nat) (l : Lane) : Lane :=
  if decide (j = lane_idx) then pass_vehicle l
  else if decide (j < LANES)%nat then accrue_wait l
  else l.

(** The number of seconds of green that line 75-77 give a lane.  For a
    queue above [GREEN_ARG_MAX] the formula of line 34 overflows [int]:
    the value is then that of the wrap-around, which a compiler need not
    give, and nothing below is stated of such a green. *)
Definition green_of (waiting : Z) : Z :=
  let green := calculate_green_time waiting in
  if green <? BASE_GREEN then BASE_GREEN else green.

(** The body of the [lane_idx] loop. *)
Definition green_phase (lane_idx : nat) (it : Intersection) : Intersection :=
  let waiting := vehicles (lane_at it lane_idx) in
  let green := green_of waiting in
  for_loop (Z.to_nat green) 0 (fun _ => tick lane_idx) it.

(** [it] is not null: [main] passes what [create_intersection] returned. *)
Definition run_one_cycle (it : Intersection) : Intersection :=
  let it := for_loop LANES 0 green_phase it in
  set_cycles (int_add (cycles it) 1) it.

(** Lanes with the given queues and no history. *)
Definition lanes_of_counts (vs : list Z) : list Lane :=
  (fun v => {| vehicles := v; total_wait_secs := 0; vehicles_served := 0 |})
    <$> vs.

(** The intersection of the worked scenario. *)
Definition scenario : Intersection :=
  {| name := "Main_1"; lanes := lanes_of_counts [2; 0; 5; 1]; cycles := 0 |}.

(** ** Headroom of the counters

    The predicates under which no counter of a lane leaves the range of its
    C type. *)

(** [room T l]: lane [l] can live through [T] simulated seconds. *)
Definition room (T : Z) (l : Lane) : Prop :=
  0 <= vehicles l <= INT_MAX /\
  LONG_MIN <= vehicles_served l /\ vehicles_served l + T <= LONG_MAX /\
  LONG_MIN <= total_wait_secs l /\
  total_wait_secs l + T * vehicles l <= LONG_MAX.

(** [lane_adv t l l']: what at most [t] simulated seconds may have made of
    lane [l]. *)
Definition lane_adv (t : Z) (l l' : Lane) : Prop :=
  0 <= vehicles l' <= vehicles l /\
  vehicles_served l <= vehicles_served l' <= vehicles_served l + t /\
  total_wait_secs l <= total_wait_secs l'
    <= total_wait_secs l + t * vehicles l.

Definition lanes_room (T : Z) (it : Intersection) : Prop :=
  forall (j : nat) (l : Lane), lanes it !! j = Some l -> room T l.

Definition lanes_adv (t : Z) (it it' : Intersection) : Prop :=
  forall (j : nat) (l : Lane),
    lanes it !! j = Some l ->
    exists l', lanes it' !! j = Some l' /\ lane_adv t l l'.

(** A cycle has at most [LANES * MAX_GREEN] seconds. *)
Definition CYCLE_SECS : Z := 160.

(** [headroom n l]: lane [l] can live through [n] operations, each a cycle
    or an injection of at most 3 arrivals. *)
Definition headroom (n : Z) (l : Lane) : Prop :=
  0 <= vehicles l /\ vehicles l + 3 * n <= INT_MAX /\
  LONG_MIN <= vehicles_served l /\
  vehicles_served l + CYCLE_SECS * n <= LONG_MAX /\
  LONG_MIN <= total_wait_secs l /\
  total_wait_secs l + CYCLE_SECS * n * (vehicles l + 3 * n) <= LONG_MAX.

(** ** The process: C library outcomes, output and exit *)

(** What the program writes to the terminal, in order: one event for
    each [printf], [fprintf(stderr, ...)] and [perror], with the values
    printed. *)
Inductive Event : Type :=
  | EvBanner                     (* Smart Traffic Signal Simulation (4 lanes) *)
  | EvAskLanes (n : Z)           (* Enter initial vehicle count for each ... *)
  | EvAskLane (n : Z)            (* Lane %d: *)
  | EvAskCycles                  (* Enter the number of cycles to simulate *)
  | EvCycleStart (c : Z)         (* --- Starting cycle %d --- *)
  | EvState (it : Intersection)  (* print_intersection_state *)
  | EvFinished                   (* Simulation finished. Final state: *)
  | EvStderr (msg : string)      (* fprintf(stderr, ...) and perror *)
  | EvSaved (file : string).     (* Statistics saved to %s *)

(** The summary that [save_statistics] computes and appends; the time
    stamp of the record is left out. *)
Record Stats : Type := mkStats {
  st_name : string;
  st_cycles : Z;
  total_served : Z;                 (* long *)
  total_wait : Z;                   (* long total_wait_secs *)
  avg_wait_per_vehicle : spec_float (* double *)
}.

Record World : Type := mkWorld {
  w_input : list (option Z);   (* outcomes of the coming scanf("%d") calls:
                                  the int stored, or a failed conversion *)
  w_rand : nat;                (* number of rand() calls made so far *)
  w_malloc : nat;              (* number of malloc() calls made so far *)
  w_out : list Event;          (* stdout and stderr *)
  w_file : list Stats;         (* records appended to the statistics file *)
  w_freed : list Intersection  (* objects released by destroy_intersection,
                                  with their content at that moment *)
}.

Definition EXIT_FAILURE : Z := 1.
Definition RAND_MAX : Z := 2147483647.

(** What the C library promises of [rand]. *)
Definition rand_contract (rand_seq : nat -> Z) : Prop :=
  forall k : nat, 0 <= rand_seq k <= RAND_MAX.

(** A computation either goes on with a value or has called [exit]. *)
Inductive Result (A : Type) : Type :=
  | Continue (a : A)
  | Exited (status : Z).
Arguments Continue {A} a.
Arguments Exited {A} status.

Definition Prog (A : Type) : Type := World -> Result A * World.

Definition ret {A : Type} (a : A) : Prog A := fun w => (Continue a, w).

Definition bind {A B : Type} (m : Prog A) (k : A -> Prog B) : Prog B :=
  fun w =>
    match m w with
    | (Continue a, w') => k a w'
    | (Exited st, w') => (Exited st, w')
    end.

Definition exit {A : Type} (status : Z) : Prog A := fun w => (Exited status, w).

Declare Scope prog_scope.
Delimit Scope prog_scope with prog.
Notation "x <- m ;; k" := (bind m (fun x => k))
  (at level 100, m at next level, right associativity) : prog_scope.
Notation "m ;;; k" := (bind m (fun _ => k))
  (at level 100, right associativity) : prog_scope.

Definition emit (e : Event) : Prog unit :=
  fun w =>
    (Continue tt,
     {| w_input := w_input w; w_rand := w_rand w; w_malloc := w_malloc w;
        w_out := w_out w ++ [e]; w_file := w_file w; w_freed := w_freed w |}).

(** [scanf("%d", &v)]: [Some v] when it returned 1.  A failed conversion
    leaves the offending input unread. *)
Definition scanf_int : Prog (option Z) :=
  fun w =>
    match w_input w with
    | Some v :: rest =>
        (Continue (Some v),
         {| w_input := rest; w_rand := w_rand w; w_malloc := w_malloc w;
            w_out := w_out w; w_file := w_file w; w_freed := w_freed w |})
    | _ => (Continue None, w)
    end.

(** A monadic [for (int i = start; i < start + n; ++i)]. *)
Fixpoint for_loopM {St : Type} (n : nat) (start : nat)
    (body : nat -> St -> Prog St) (s : St) : Prog St :=
  match n with
  | O => ret s
  | S n' => (s' <- body start s ;; for_loopM n' (S start) body s')%prog
  end.

Section Program.

(** The sequence that [srand(time(NULL))] selects: [rand_seq k] is the
    value of the [k]-th call of [rand]. *)
Variable rand_seq : nat -> Z.
(** Whether the [k]-th call of [malloc] succeeds. *)
Variable malloc_ok : nat -> bool.
(** Whether [fopen(filename, "a")] succeeds. *)
Variable fopen_ok : string -> bool.

Definition rand : Prog Z :=
  fun w =>
    (Continue (rand_seq (w_rand w)),
     {| w_input := w_input w; w_rand := S (w_rand w); w_malloc := w_malloc w;
        w_out := w_out w; w_file := w_file w; w_freed := w_freed w |}).

(** [malloc(...) != NULL]. *)
Definition malloc : Prog bool :=
  fun w =>
    (Continue (malloc_ok (w_malloc w)),
     {| w_input := w_input w; w_rand := w_rand w; w_malloc := S (w_malloc w);
        w_out := w_out w; w_file := w_file w; w_freed := w_freed w |}).

Definition create_intersection (nm : string) : Prog Intersection :=
  (ok <- malloc ;;
   if negb ok then
     emit (EvStderr "Allocation failed for intersection") ;;;
     exit EXIT_FAILURE
   else
     ok <- malloc ;;
     if negb ok then
       emit (EvStderr "Allocation failed for lanes") ;;;
       exit EXIT_FAILURE
     else ret (new_intersection nm))%prog.

(** ** Arrival injector *)

(** The arrivals of one lane: [rand() % 4], C's remainder. *)
Definition arrival_of (r : Z) : Z := Z.rem r 4.

Definition add_arrival (arrival : Z) (l : Lane) : Lane :=
  {| vehicles := int_add (vehicles l) arrival;
     total_wait_secs := total_wait_secs l;
     vehicles_served := vehicles_served l |}.

Definition random_arrival_between_cycles (it : Intersection)
  : Prog Intersection :=
  for_loopM LANES 0
    (fun i it =>
       (r <- rand ;;
        let arrival := arrival_of r in
        ret (update_lane i (add_arrival arrival) it))%prog)
    it.

(** ** Sequences of operations

    The two operations that change an intersection, and their runs in any
    order: what [main] interleaves, and more. *)

Inductive Op : Type := OpCycle | OpArrivals.

Definition apply_op (op : Op) (it : Intersection) : Prog Intersection :=
  match op with
  | OpCycle => ret (run_one_cycle it)
  | OpArrivals => random_arrival_between_cycles it
  end.

Fixpoint run_ops (ops : list Op) (it : Intersection) : Prog Intersection :=
  match ops with
  | [] => ret it
  | op :: ops' => (it' <- apply_op op it ;; run_ops ops' it')%prog
  end.

(** ** Input *)

Definition set_vehicles (v : Z) (l : Lane) : Lane :=
  {| vehicles := v;
     total_wait_secs := total_wait_secs l;
     vehicles_served := vehicles_served l |}.

Definition input_vehicle_counts (it : Intersection) : Prog Intersection :=
  (emit (EvAskLanes (Z.of_nat LANES)) ;;;
   for_loopM LANES 0
    (fun i it =>
       (emit (EvAskLane (int_add (Z.of_nat i) 1)) ;;;
        r <- scanf_int ;;
        match r with
        | None =>
            emit (EvStderr "Invalid input. Exiting.") ;;;
            exit EXIT_FAILURE
        | Some v =>
            let v := if v <? 0 then 0 else v in
            ret (update_lane i (set_vehicles v) it)
        end)%prog)
    it)%prog.

(** ** Statistics *)

(** [double] is binary64. *)
Definition prec : Z := 53.
Definition emax : Z := 1024.

(** The conversion [(double) x] of a [long], to nearest even. *)
Definition double_of_long (x : Z) : spec_float :=
  binary_normalize prec emax x 0 false.

Definition double_div (x y : spec_float) : spec_float := SFdiv prec emax x y.

(** Lines 118-124: the two sums and the average. *)
Definition summarize (it : Intersection) : Stats :=
  let '(served, wait) :=
    for_loop LANES 0
      (fun i '(served, wait) =>
         (long_add served (vehicles_served (lane_at it i)),
          long_add wait (total_wait_secs (lane_at it i))))
      (0, 0) in
  let avg :=
    if 0 <? served
    then double_div (double_of_long wait) (double_of_long served)
    else S754_zero false in
  {| st_name := name it; st_cycles := cycles it;
     total_served := served; total_wait := wait;
     avg_wait_per_vehicle := avg |}.

Definition append_record (st : Stats) : Prog unit :=
  fun w =>
    (Continue tt,
     {| w_input := w_input w; w_rand := w_rand w; w_malloc := w_malloc w;
        w_out := w_out w; w_file := w_file w ++ [st]; w_freed := w_freed w |}).

Definition save_statistics (it : Intersection) (filename : string)
  : Prog unit :=
  if negb (fopen_ok filename) then emit (EvStderr "fopen")
  else
    (append_record (summarize it) ;;;
     emit (EvSaved filename))%prog.

(** ** Driver *)

Definition print_intersection_state (it : Intersection) : Prog unit :=
  emit (EvState it).

Definition destroy_intersection (it : Intersection) : Prog unit :=
  fun w =>
    (Continue tt,
     {| w_input := w_input w; w_rand := w_rand w; w_malloc := w_malloc w;
        w_out := w_out w; w_file := w_file w; w_freed := w_freed w ++ [it] |}).

(** The body of the loop of [main], lines 173-180. *)
Definition simulate_cycle (c : nat) (it : Intersection) : Prog Intersection :=
  (emit (EvCycleStart (int_add (Z.of_nat c) 1)) ;;;
   print_intersection_state it ;;;
   let it := run_one_cycle it in
   it <- random_arrival_between_cycles it ;;
   print_intersection_state it ;;;
   ret it)%prog.

(** [main]; the value is the exit status it returns. *)
Definition main : Prog Z :=
  (it <- create_intersection "Main_1" ;;
   emit EvBanner ;;;
   it <- input_vehicle_counts it ;;
   emit EvAskCycles ;;;
   r <- scanf_int ;;
   let invalid :=
     emit (EvStderr "Invalid number of cycles. Exiting.") ;;;
     destroy_intersection it ;;;
     ret 1 in
   match r with
   | None => invalid
   | Some cycles_to_run =>
       if cycles_to_run <=? 0 then invalid
       else
         it <- for_loopM (Z.to_nat cycles_to_run) 0 simulate_cycle it ;;
         emit EvFinished ;;;
         print_intersection_state it ;;;
         save_statistics it "traffic_stats.txt" ;;;
         destroy_intersection it ;;;
         ret 0
   end)%prog.

(** The exit status of the process and the world it leaves. *)
Definition run_main (w : World) : Z * World :=
  match main w with
  | (Continue status, w') => (status, w')
  | (Exited status, w') => (status, w')
  end.

End Program.

(** A world in which nothing has happened yet. *)
Definition initial_world (input : list (option Z)) : World :=
  {| w_input := input; w_rand := O; w_malloc := O;
     w_out := []; w_file := []; w_freed := [] |}.

(** ** The summary in the specification's words *)

(** The sum of a counter over the 4 lanes, over the integers. *)
Definition sum_lanes (f : Lane -> Z) (it : Intersection) : Z :=
  f (lane_at it 0) + f (lane_at it 1) + f (lane_at it 2) + f (lane_at it 3).

(** The rational a finite [double] stands for. *)
Definition SF2Q (x : spec_float) : option Q :=
  match x with
  | S754_zero _ => Some 0%Q
  | S754_finite s m e =>
      Some ((if s then -1 else 1) * inject_Z (Zpos m) * Qpower 2 e)%Q
  | _ => None
  end.

(** [x] is finite and within [1e-9] of the quotient [num / den]. *)
Definition within_tolerance (x : spec_float) (num : Z) (den : positive)
  : Prop :=
  match SF2Q x with
  | Some q => (Qabs (q - (num # den)) <= 1 # 1000000000)%Q
  | None => False
  end.

(** A queue of [10 ^ 8] vehicles behind three cars. *)
Definition long_queue : Intersection :=
  {| name := "Main_1";
     lanes := lanes_of_counts [3; 0; 0; 100000000];
     cycles := 0 |}.

(** ** Runs of the driver *)

(** The cycle count is missing, is not a number, or is not positive. *)
Definition invalid_count (tail : list (option Z)) : Prop :=
  match tail with
  | Some c :: _ => c <= 0
  | _ => True
  end.

(** What [input_vehicle_counts] writes when it reads four numbers. *)
Definition lane_prompts : list Event :=
  [EvAskLanes 4; EvAskLane 1; EvAskLane 2; EvAskLane 3; EvAskLane 4].

(** The intersection of [main] once the lane counts [vs] have been
    stored. *)
Definition seeded (vs : list Z) : Intersection :=
  {| name := "Main_1"; lanes := lanes_of_counts vs; cycles := 0 |}.

(** [main] from the prompt for the number of cycles on. *)
Definition main_after_input (rand_seq : nat -> Z) (fopen_ok : string -> bool)
    (it : Intersection) : Prog Z :=
  (emit EvAskCycles ;;;
   r <- scanf_int ;;
   let invalid :=
     emit (EvStderr "Invalid number of cycles. Exiting.") ;;;
     destroy_intersection it ;;;
     ret 1 in
   match r with
   | None => invalid
   | Some cycles_to_run =>
       if cycles_to_run <=? 0 then invalid
       else
         it <- for_loopM (Z.to_nat cycles_to_run) 0
                 (simulate_cycle rand_seq) it ;;
         emit EvFinished ;;;
         print_intersection_state it ;;;
         save_statistics fopen_ok it "traffic_stats.txt" ;;;
         destroy_intersection it ;;;
         ret 0
   end)%prog.

(** ** A cycle in closed form *)

(** The seconds of green that lane [i] of [it] is due. *)
Definition green_at (it : Intersection) (i : nat) : Z :=
  green_of (vehicles (lane_at it i)).

(** The sum of [G i] over the [i] of [[start, start + n)] that satisfy
    [P]. *)
Fixpoint green_total (P : nat -> bool) (G : nat -> Z) (start n : nat) : Z :=
  match n with
  | O => 0
  | S n' => (if P start then G start else 0) + green_total P G (S start) n'
  end.

(** The seconds of green of the lanes served before lane [j] in a cycle,
    and of those served after it. *)
Definition greens_before (it : Intersection) (j : nat) : Z :=
  green_total (fun i => Nat.ltb i j) (green_at it) 0 LANES.

Definition greens_after (it : Intersection) (j : nat) : Z :=
  green_total (fun i => Nat.ltb j i) (green_at it) 0 LANES.

(** A lane whose counters are within the ranges of their types and whose
    queue is not negative. *)
Definition lane_ok (l : Lane) : Prop :=
  0 <= vehicles l <= INT_MAX /\
  is_long (total_wait_secs l) /\ is_long (vehicles_served l).

(** No queue is so long that the green-time formula overflows for it. *)
Definition queues_in_range (it : Intersection) : Prop :=
  forall i : nat,
    (i < LANES)%nat -> 0 <= vehicles (lane_at it i) <= GREEN_ARG_MAX.

(** [n] cycles in a row, with no arrival in between. *)
Fixpoint run_cycles (n : nat) (it : Intersection) : Intersection :=
  match n with
  | O => it
  | S n' => run_cycles n' (run_one_cycle it)
  end.

(** ** The loop of [main], on the state *)

(** The lanes after a call of the injector whose first draw is the [r]-th
    of the run. *)
Definition arrivals (rand_seq : nat -> Z) (r : nat) (it : Intersection)
  : Intersection :=
  for_loop LANES 0
    (fun i it =>
       update_lane i (add_arrival (arrival_of (rand_seq (r + i)%nat))) it)
    it.

(** One pass of the loop, lines 175 and 178: a cycle, then the arrivals. *)
Definition pass (rand_seq : nat -> Z) (r : nat) (it : Intersection)
  : Intersection :=
  arrivals rand_seq r (run_one_cycle it).

(** [n] passes, the first of which draws from the [r]-th draw on. *)
Fixpoint passes (rand_seq : nat -> Z) (n r : nat) (it : Intersection)
  : Intersection :=
  match n with
  | O => it
  | S n' => passes rand_seq n' (r + LANES) (pass rand_seq r it)
  end.

(** What [n] passes print, the first of them being the one of [c]. *)
Fixpoint passes_out (rand_seq : nat -> Z) (n c r : nat) (it : Intersection)
  : list Event :=
  match n with
  | O => []
  | S n' =>
      EvCycleStart (int_add (Z.of_nat c) 1) :: EvState it
        :: EvState (pass rand_seq r it)
        :: passes_out rand_seq n' (S c) (r + LANES) (pass rand_seq r it)
  end.

(** The vehicles that [n] calls of the injector give lane [j]. *)
Fixpoint arrived (rand_seq : nat -> Z) (n r j : nat) : Z :=
  match n with
  | O => 0
  | S n' => arrival_of (rand_seq (r + j)%nat) + arrived rand_seq n' (r + LANES) j
  end.

(** The numbers of the cycle banners among the events, and the states
    printed, both in the order of the output. *)
Definition cycle_starts (out : list Event) : list Z :=
  omap (fun e => match e with EvCycleStart c => Some c | _ => None end) out.

Definition states_printed (out : list Event) : list Intersection :=
  omap (fun e => match e with EvState it => Some it | _ => None end) out.

(** The input does not go on with a number. *)
Definition no_number (input : list (option Z)) : Prop :=
  match input with
  | Some _ :: _ => False
  | _ => True
  end.

(** ** Concrete data for the examples *)

(** The generator of the C standard's sample [rand], as a sequence. *)
Definition sample_rand (k : nat) : Z :=
  (Z.of_nat k * 1103515245 + 12345) mod 2147483648.

(** A generator that always draws 1. *)
Definition ones_rand (k : nat) : Z := 1.

(** An intersection whose first lane holds [INT_MAX] vehicles. *)
Definition full_lane : Intersection :=
  {| name := "Main_1";
     lanes := lanes_of_counts [2147483647; 0; 0; 0];
     cycles := 0 |}.

(** An intersection whose first lane holds [2 ^ 30] vehicles. *)
Definition large_queue : Intersection :=
  {| name := "Main_1";
     lanes := lanes_of_counts [1073741824; 0; 0; 0];
     cycles := 0 |}.

(** An intersection that has counted [INT_MAX] cycles. *)
Definition last_cycle : Intersection :=
  {| name := "Main_1";
     lanes := lanes_of_counts [0; 0; 0; 0];
     cycles := 2147483647 |}.

(** The four phases of a cycle, written out. *)
Definition four_phases (it : Intersection) : Intersection :=
  green_phase 3 (green_phase 2 (green_phase 1 (green_phase 0 it))).

(** * Verification *)

(** ** Machine arithmetic *)

Lemma wrap_int_id (x : Z) : is_int x -> wrap 32 x = x.
Proof.
  unfold is_int, INT_MIN, INT_MAX, wrap. intros Hx.
  change (2 ^ (32 - 1)) with 2147483648. change (2 ^ 32) with 4294967296.
  rewrite Z.mod_small; lia.
Qed.

Lemma wrap_long_id (x : Z) : is_long x -> wrap 64 x = x.
Proof.
  unfold is_long, LONG_MIN, LONG_MAX, wrap. intros Hx.
  change (2 ^ (64 - 1)) with 9223372036854775808.
  change (2 ^ 64) with 18446744073709551616.
  rewrite Z.mod_small; lia.
Qed.

Lemma wrap_int_range (x : Z) : is_int (wrap 32 x).
Proof.
  unfold is_int, INT_MIN, INT_MAX, wrap.
  change (2 ^ (32 - 1)) with 2147483648. change (2 ^ 32) with 4294967296.
  pose proof (Z.mod_pos_bound (x + 2147483648) 4294967296). lia.
Qed.

Lemma wrap_long_range (x : Z) : is_long (wrap 64 x).
Proof.
  unfold is_long, LONG_MIN, LONG_MAX, wrap.
  change (2 ^ (64 - 1)) with 9223372036854775808.
  change (2 ^ 64) with 18446744073709551616.
  pose proof (Z.mod_pos_bound (x + 9223372036854775808) 18446744073709551616).
  lia.
Qed.

(** Adding after a reduction is adding before it. *)
Lemma wrap_add_l (bits x y : Z) : wrap bits (wrap bits x + y) = wrap bits (x + y).
Proof.
  unfold wrap. f_equal.
  replace ((x + 2 ^ (bits - 1)) mod 2 ^ bits - 2 ^ (bits - 1) + y + 2 ^ (bits - 1))
    with ((x + 2 ^ (bits - 1)) mod 2 ^ bits + y) by lia.
  rewrite Zplus_mod_idemp_l. f_equal. lia.
Qed.

Lemma long_add_assoc (x y z : Z) :
  long_add (long_add x y) z = long_add x (y + z).
Proof. unfold long_add. rewrite wrap_add_l. f_equal. lia. Qed.

(** ** Green-time policy *)

(** Where the formula does not overflow, the code computes it and caps it. *)
Lemma calculate_green_time_exact (w : Z) :
  GREEN_ARG_MIN <= w <= GREEN_ARG_MAX ->
  calculate_green_time w = Z.min MAX_GREEN (BASE_GREEN + 2 * w).
Proof.
  unfold GREEN_ARG_MIN, GREEN_ARG_MAX. intros Hw.
  unfold calculate_green_time, int_add, int_mul, MAX_GREEN, BASE_GREEN.
  rewrite (wrap_int_id (2 * w)) by (unfold is_int, INT_MIN, INT_MAX; lia).
  rewrite (wrap_int_id (5 + 2 * w)) by (unfold is_int, INT_MIN, INT_MAX; lia).
  destruct (Z.ltb_spec 40 (5 + 2 * w)); lia.
Qed.

Lemma calculate_green_time_le_max (w : Z) : calculate_green_time w <= MAX_GREEN.
Proof.
  unfold calculate_green_time.
  destruct (Z.ltb_spec MAX_GREEN (int_add BASE_GREEN (int_mul 2 w))); lia.
Qed.

(** The duration that [green_of] gives lies in [[BASE_GREEN, MAX_GREEN]]:
    line 77 repairs what the formula leaves below the base. *)
Lemma green_of_range (w : Z) : BASE_GREEN <= green_of w <= MAX_GREEN.
Proof.
  unfold green_of. pose proof (calculate_green_time_le_max w).
  destruct (Z.ltb_spec (calculate_green_time w) BASE_GREEN);
    unfold BASE_GREEN, MAX_GREEN in *; lia.
Qed.

Lemma green_of_exact (w : Z) :
  0 <= w <= GREEN_ARG_MAX -> green_of w = calculate_green_time w.
Proof.
  intros Hw. unfold green_of.
  rewrite calculate_green_time_exact
    by (unfold GREEN_ARG_MIN, GREEN_ARG_MAX in *; lia).
  destruct (Z.ltb_spec (Z.min MAX_GREEN (BASE_GREEN + 2 * w)) BASE_GREEN);
    unfold BASE_GREEN, MAX_GREEN in *; lia.
Qed.

(** C3, as stated, fails: for 1073741822 waiting vehicles, a non-negative
    [int], [2 * w] is computed but [5 + 2 * w] overflows; the result is
    negative, hence below the base and below the result for 18 vehicles. *)
Lemma calculate_green_time_below_base :
  is_int 1073741822 /\ 0 <= 1073741822 /\
  calculate_green_time 1073741822 = -2147483647 /\
  ~ (BASE_GREEN <= calculate_green_time 1073741822 <= MAX_GREEN) /\
  18 <= 1073741822 /\
  ~ (calculate_green_time 18 <= calculate_green_time 1073741822).
Proof.
  split; [unfold is_int, INT_MIN, INT_MAX; lia|]. split; [lia|].
  split; [reflexivity|].
  change (calculate_green_time 1073741822) with (-2147483647).
  change (calculate_green_time 18) with 40.
  unfold BASE_GREEN, MAX_GREEN. lia.
Qed.

(** C3, amended: on the arguments for which [BASE_GREEN + 2 * w] is
    computed without overflow, from -1073741824 to 1073741821, the
    function is monotonically non-decreasing and never exceeds
    [MAX_GREEN]; for a non-negative argument in that range the result lies
    in [[5, 40]]; and on the whole range the duration that [run_one_cycle]
    makes of it, with its lower clamp, is monotonically non-decreasing and
    lies in [[5, 40]]. *)
Theorem calculate_green_time_monotone_bounded (w1 w2 : Z) :
  GREEN_ARG_MIN <= w1 -> w1 <= w2 -> w2 <= GREEN_ARG_MAX ->
  calculate_green_time w1 <= calculate_green_time w2 /\
  calculate_green_time w2 <= 40 /\
  (0 <= w1 -> 5 <= calculate_green_time w1 <= 40) /\
  green_of w1 <= green_of w2 /\
  5 <= green_of w1 <= 40.
Proof.
  intros H1 H12 H2. unfold green_of.
  rewrite !calculate_green_time_exact by lia.
  unfold GREEN_ARG_MIN, GREEN_ARG_MAX, MAX_GREEN, BASE_GREEN in *.
  destruct (Z.ltb_spec (Z.min 40 (5 + 2 * w1)) 5);
    destruct (Z.ltb_spec (Z.min 40 (5 + 2 * w2)) 5); lia.
Qed.

Lemma calculate_green_time_monotone_bounded_witness :
  calculate_green_time 3 <= calculate_green_time 20 /\
  calculate_green_time 20 <= 40 /\
  5 <= calculate_green_time 3 <= 40 /\
  5 <= green_of 3 <= 40.
Proof.
  destruct (calculate_green_time_monotone_bounded 3 20)
    as (Hmono & H40 & Hrange & _ & Hgreen).
  - unfold GREEN_ARG_MIN. lia.
  - lia.
  - unfold GREEN_ARG_MAX. lia.
  - split; [exact Hmono|]. split; [exact H40|].
    split; [apply Hrange; lia|exact Hgreen].
Defined.

(** C4, as stated, fails: for a large queue the formula overflows [int],
    and the result is neither the clamped value nor in [[5, 40]]. *)
Lemma calculate_green_time_overflow :
  0 <= 1073741824 /\ is_int 1073741824 /\
  calculate_green_time 1073741824 = -2147483643 /\
  green_time_spec 1073741824 = 40 /\
  calculate_green_time 1073741824 <> green_time_spec 1073741824.
Proof.
  split; [lia|]. split; [unfold is_int, INT_MIN, INT_MAX; lia|].
  split; [reflexivity|]. split; [reflexivity|].
  change (calculate_green_time 1073741824) with (-2147483643).
  change (green_time_spec 1073741824) with 40. lia.
Qed.

(** C4, amended: for every [w] with [0 <= w <= 1073741821] the result is
    [BASE_GREEN + 2 * w] clamped to [[BASE_GREEN, MAX_GREEN]]; and
    [green_time 0 = 5], [green_time 10 = 25], [green_time 20 = 40]. *)
Theorem calculate_green_time_spec (w : Z) :
  (0 <= w <= GREEN_ARG_MAX -> calculate_green_time w = green_time_spec w) /\
  calculate_green_time 0 = 5 /\
  calculate_green_time 10 = 25 /\
  calculate_green_time 20 = 40.
Proof.
  split; [|repeat split; reflexivity].
  intros Hw. rewrite calculate_green_time_exact by (unfold GREEN_ARG_MIN; lia).
  unfold green_time_spec, BASE_GREEN, MAX_GREEN. lia.
Qed.

Lemma calculate_green_time_spec_witness :
  calculate_green_time 17 = green_time_spec 17 /\
  calculate_green_time 18 = green_time_spec 18.
Proof.
  split.
  - apply (calculate_green_time_spec 17); unfold GREEN_ARG_MAX; lia.
  - apply (calculate_green_time_spec 18); unfold GREEN_ARG_MAX; lia.
Defined.

(** ** The lane array under the loops *)

Lemma lookup_update_lane (i j : nat) (f : Lane -> Lane) (it : Intersection) :
  lanes (update_lane i f it) !! j
  = (if decide (i = j) then f else id) <$> lanes it !! j.
Proof.
  unfold update_lane; simpl. destruct (decide (i = j)) as [->|Hne].
  - apply list_lookup_alter_eq.
  - rewrite list_lookup_alter_ne by done. by rewrite option_fmap_id.
Qed.

(** A loop whose body ignores the counter does not depend on where the
    counter starts. *)
Lemma for_loop_const_start {St : Type} (f : St -> St) (n a b : nat) (s : St) :
  for_loop n a (fun _ => f) s = for_loop n b (fun _ => f) s.
Proof.
  revert a b s. induction n as [|n IH]; intros a b s; simpl; [done|]. apply IH.
Qed.

Lemma for_loop_ext {St : Type} (f g : nat -> St -> St) (n start : nat) (s : St) :
  (forall i x, f i x = g i x) ->
  for_loop n start f s = for_loop n start g s.
Proof.
  intros Hfg. revert start s.
  induction n as [|n IH]; intros start s; simpl; [done|].
  rewrite Hfg. apply IH.
Qed.

Lemma for_loop_const_S {St : Type} (f : St -> St) (n : nat) (s : St) :
  for_loop (S n) 0 (fun _ => f) s = for_loop n 0 (fun _ => f) (f s).
Proof. simpl. apply for_loop_const_start. Qed.

Lemma accrue_loop_lookup (lane_idx n start j : nat) (it : Intersection) :
  lanes (for_loop n start
           (fun j it => if Nat.eqb j lane_idx then it
                        else update_lane j accrue_wait it) it) !! j
  = (if decide (j <> lane_idx /\ start <= j < start + n)%nat
     then accrue_wait else id) <$> lanes it !! j.
Proof.
  revert start it. induction n as [|n IH]; intros start it; simpl.
  - rewrite decide_False by lia. by rewrite option_fmap_id.
  - rewrite IH. destruct (Nat.eqb_spec start lane_idx) as [->|Hne].
    + destruct (lanes it !! j); simpl; [|done].
      repeat case_decide; try lia; done.
    + rewrite lookup_update_lane.
      destruct (lanes it !! j); simpl; [|done].
      repeat case_decide; try lia; done.
Qed.

Lemma tick_lookup (lane_idx j : nat) (it : Intersection) :
  lanes (tick lane_idx it) !! j = tick_lane lane_idx j <$> lanes it !! j.
Proof.
  unfold tick. rewrite accrue_loop_lookup, lookup_update_lane.
  destruct (lanes it !! j); simpl; [|done].
  unfold tick_lane, LANES. repeat case_decide; try lia; done.
Qed.

Lemma accrue_loop_frame (lane_idx n start : nat) (it : Intersection) :
  let it' := for_loop n start
               (fun j it => if Nat.eqb j lane_idx then it
                            else update_lane j accrue_wait it) it in
  name it' = name it /\ cycles it' = cycles it /\
  length (lanes it') = length (lanes it).
Proof.
  revert start it. induction n as [|n IH]; intros start it; simpl; [done|].
  destruct (IH (S start)
              (if Nat.eqb start lane_idx then it
               else update_lane start accrue_wait it)) as (Hn & Hc & Hl).
  rewrite Hn, Hc, Hl.
  destruct (Nat.eqb start lane_idx); simpl; [done|].
  by rewrite length_alter.
Qed.

Lemma tick_frame (lane_idx : nat) (it : Intersection) :
  name (tick lane_idx it) = name it /\
  cycles (tick lane_idx it) = cycles it /\
  length (lanes (tick lane_idx it)) = length (lanes it).
Proof.
  unfold tick.
  destruct (accrue_loop_frame lane_idx LANES 0
              (update_lane lane_idx pass_vehicle it)) as (Hn & Hc & Hl).
  rewrite Hn, Hc, Hl. simpl. by rewrite length_alter.
Qed.

(** [n] seconds of lane [lane_idx]'s green. *)
Lemma ticks_lookup (lane_idx j n start : nat) (it : Intersection) :
  lanes (for_loop n start (fun _ => tick lane_idx) it) !! j
  = for_loop n 0 (fun _ => tick_lane lane_idx j) <$> lanes it !! j.
Proof.
  revert start it. induction n as [|n IH]; intros start it.
  - simpl. by rewrite option_fmap_id.
  - simpl. rewrite IH, tick_lookup.
    destruct (lanes it !! j); simpl; [|done].
    f_equal. apply for_loop_const_start.
Qed.

Lemma ticks_frame (lane_idx n start : nat) (it : Intersection) :
  let it' := for_loop n start (fun _ => tick lane_idx) it in
  name it' = name it /\ cycles it' = cycles it /\
  length (lanes it') = length (lanes it).
Proof.
  revert start it. induction n as [|n IH]; intros start it; simpl; [done|].
  destruct (IH (S start) (tick lane_idx it)) as (Hn & Hc & Hl).
  destruct (tick_frame lane_idx it) as (Hn' & Hc' & Hl').
  rewrite Hn, Hc, Hl. done.
Qed.

Lemma green_phase_lookup (lane_idx j : nat) (it : Intersection) :
  lanes (green_phase lane_idx it) !! j
  = for_loop (Z.to_nat (green_of (vehicles (lane_at it lane_idx)))) 0
      (fun _ => tick_lane lane_idx j) <$> lanes it !! j.
Proof. unfold green_phase. apply ticks_lookup. Qed.

Lemma green_phase_frame (lane_idx : nat) (it : Intersection) :
  name (green_phase lane_idx it) = name it /\
  cycles (green_phase lane_idx it) = cycles it /\
  length (lanes (green_phase lane_idx it)) = length (lanes it).
Proof. unfold green_phase. apply ticks_frame. Qed.

(** ** A lane through its own green *)

Lemma pass_vehicle_iter (n : nat) (l : Lane) :
  0 <= vehicles l <= INT_MAX ->
  is_long (vehicles_served l) ->
  for_loop n 0 (fun _ => pass_vehicle) l
  = {| vehicles := Z.max (vehicles l - Z.of_nat n) 0;
       total_wait_secs := total_wait_secs l;
       vehicles_served :=
         long_add (vehicles_served l) (Z.min (vehicles l) (Z.of_nat n)) |}.
Proof.
  revert l. induction n as [|n IH]; intros [v wt sv] Hv Hs; simpl in Hv, Hs.
  - simpl. rewrite Z.min_r by lia. unfold long_add.
    rewrite Z.add_0_r, wrap_long_id by done. f_equal. lia.
  - rewrite for_loop_const_S. unfold pass_vehicle at 2; simpl.
    destruct (Z.ltb_spec 0 v) as [Hpos|Hzero].
    + unfold int_sub, VEHICLE_PASS_PER_SEC.
      rewrite wrap_int_id by (unfold is_int, INT_MIN, INT_MAX in *; lia).
      destruct (Z.ltb_spec (v - 1) 0); [lia|].
      rewrite IH; simpl.
      * rewrite long_add_assoc. f_equal; [lia|]. f_equal. lia.
      * unfold INT_MAX in *. lia.
      * apply wrap_long_range.
    + rewrite IH by done. simpl. f_equal; [lia|]. f_equal. lia.
Qed.

(** C9, as stated, fails: with 1073741824 vehicles waiting the formula
    overflows, [green_time] is negative, the phase lasts [BASE_GREEN]
    seconds and 5 vehicles leave. *)
Lemma green_phase_large_queue :
  let it := large_queue in
  let v := vehicles (lane_at it 0) in
  let g := calculate_green_time v in
  0 <= v /\ is_int v /\ g = -2147483643 /\
  vehicles (lane_at (green_phase 0 it) 0) = 1073741819 /\
  vehicles (lane_at (green_phase 0 it) 0) <> Z.max (v - g) 0.
Proof. vm_compute. repeat split; congruence. Qed.

(** C9, amended: for a lane with [0 <= v <= 1073741821] vehicles waiting
    at the start of its green phase, the phase lasts
    [g = green_time v] seconds; after [n] of them the lane has
    [max (v - n) 0] vehicles, has served [min v n] more and has its own
    waiting time unchanged; so at the end of the phase it has
    [max (v - g) 0] vehicles and has served [min v g] more (exactly so when
    the counter stays below [LONG_MAX]), and a lane with at most 40
    vehicles waiting is empty. *)
Theorem green_phase_own_lane (i : nat) (it : Intersection) (l : Lane) :
  lanes it !! i = Some l ->
  0 <= vehicles l <= GREEN_ARG_MAX ->
  is_long (vehicles_served l) ->
  let v := vehicles l in
  let g := calculate_green_time v in
  green_phase i it = for_loop (Z.to_nat g) 0 (fun _ => tick i) it /\
  (forall n : nat,
     lanes (for_loop n 0 (fun _ => tick i) it) !! i
     = Some {| vehicles := Z.max (v - Z.of_nat n) 0;
               total_wait_secs := total_wait_secs l;
               vehicles_served :=
                 long_add (vehicles_served l) (Z.min v (Z.of_nat n)) |}) /\
  exists l',
    lanes (green_phase i it) !! i = Some l' /\
    vehicles l' = Z.max (v - g) 0 /\
    vehicles_served l' = long_add (vehicles_served l) (Z.min v g) /\
    (vehicles_served l + Z.min v g <= LONG_MAX ->
     vehicles_served l' = vehicles_served l + Z.min v g) /\
    total_wait_secs l' = total_wait_secs l /\
    (v <= 40 -> vehicles l' = 0).
Proof.
  intros Hl Hv Hs v g.
  assert (Hg : green_of v = g) by (apply green_of_exact; done).
  assert (Hgv : g = Z.min MAX_GREEN (BASE_GREEN + 2 * v)).
  { apply calculate_green_time_exact.
    unfold GREEN_ARG_MIN, GREEN_ARG_MAX in *. lia. }
  assert (Hticks : forall n : nat,
             lanes (for_loop n 0 (fun _ => tick i) it) !! i
             = Some {| vehicles := Z.max (v - Z.of_nat n) 0;
                       total_wait_secs := total_wait_secs l;
                       vehicles_served :=
                         long_add (vehicles_served l)
                           (Z.min v (Z.of_nat n)) |}).
  { intros n. rewrite ticks_lookup, Hl. simpl. f_equal. unfold v.
    rewrite <- pass_vehicle_iter
      by (try done; unfold GREEN_ARG_MAX, INT_MAX in *; lia).
    apply for_loop_ext. intros _ x. unfold tick_lane.
    by rewrite decide_True. }
  assert (Hphase : green_phase i it
                   = for_loop (Z.to_nat g) 0 (fun _ => tick i) it).
  { unfold green_phase, lane_at. rewrite Hl. simpl. fold v. by rewrite Hg. }
  split; [exact Hphase|]. split; [exact Hticks|].
  rewrite Hphase, Hticks. eexists. split; [reflexivity|]. simpl.
  unfold MAX_GREEN, BASE_GREEN in Hgv.
  rewrite Z2Nat.id by lia.
  repeat split; try done.
  - intros Hroom. unfold long_add. apply wrap_long_id.
    unfold is_long in *. lia.
  - lia.
Qed.

Lemma green_phase_own_lane_witness :
  let l := {| vehicles := 5; total_wait_secs := 70; vehicles_served := 0 |} in
  exists l',
    lanes (green_phase 2 (green_phase 1 (green_phase 0 scenario))) !! 2%nat
      = Some l' /\
    vehicles l' = 0 /\ vehicles_served l' = 5 /\ total_wait_secs l' = 70.
Proof.
  pose proof (green_phase_own_lane 2
                (green_phase 1 (green_phase 0 scenario))
                {| vehicles := 5; total_wait_secs := 70; vehicles_served := 0 |})
    as H.
  destruct H as (_ & _ & l' & Hl' & Hv & Hs & _ & Hw & _).
  - reflexivity.
  - simpl. unfold GREEN_ARG_MAX. lia.
  - simpl. unfold is_long, LONG_MIN, LONG_MAX. lia.
  - exists l'. repeat split; assumption.
Defined.

(** ** Counters within their ranges *)

Lemma room_weaken (T t : Z) (l : Lane) : room T l -> 0 <= t <= T -> room t l.
Proof. unfold room. intros (Hv & Hs1 & Hs2 & Hw1 & Hw2) Ht. repeat split; nia. Qed.

Lemma room_after (T t : Z) (l l' : Lane) :
  room T l -> lane_adv t l l' -> 0 <= t <= T -> room (T - t) l'.
Proof.
  unfold room, lane_adv.
  intros (Hv & Hs1 & Hs2 & Hw1 & Hw2) (Hv' & Hs' & Hw') Ht.
  repeat split; nia.
Qed.

Lemma lane_adv_refl (l : Lane) : 0 <= vehicles l -> lane_adv 0 l l.
Proof. unfold lane_adv. lia. Qed.

Lemma lane_adv_trans (t1 t2 : Z) (l l1 l2 : Lane) :
  lane_adv t1 l l1 -> lane_adv t2 l1 l2 -> 0 <= t2 ->
  lane_adv (t1 + t2) l l2.
Proof.
  unfold lane_adv. intros (Hv & Hs & Hw) (Hv' & Hs' & Hw') Ht.
  repeat split; nia.
Qed.

Lemma lane_adv_mono (t t' : Z) (l l' : Lane) :
  lane_adv t l l' -> t <= t' -> lane_adv t' l l'.
Proof. unfold lane_adv. intros (Hv & Hs & Hw) Ht. repeat split; nia. Qed.

Lemma pass_vehicle_adv (l : Lane) : room 1 l -> lane_adv 1 l (pass_vehicle l).
Proof.
  unfold room, lane_adv, pass_vehicle, INT_MAX.
  intros (Hv & Hs1 & Hs2 & Hw1 & Hw2).
  destruct (Z.ltb_spec 0 (vehicles l)); simpl; [|lia].
  unfold int_sub, long_add, VEHICLE_PASS_PER_SEC.
  rewrite wrap_int_id by (unfold is_int, INT_MIN, INT_MAX; lia).
  rewrite wrap_long_id by (unfold is_long; lia).
  destruct (Z.ltb_spec (vehicles l - 1) 0); lia.
Qed.

Lemma accrue_wait_adv (l : Lane) : room 1 l -> lane_adv 1 l (accrue_wait l).
Proof.
  unfold room, lane_adv, accrue_wait.
  intros (Hv & Hs1 & Hs2 & Hw1 & Hw2).
  destruct (Z.ltb_spec 0 (vehicles l)); simpl; [|lia].
  unfold long_add. rewrite wrap_long_id by (unfold is_long; lia). lia.
Qed.

Lemma tick_lane_adv (lane_idx j : nat) (l : Lane) :
  room 1 l -> lane_adv 1 l (tick_lane lane_idx j l).
Proof.
  intros Hroom. unfold tick_lane. repeat case_decide.
  - by apply pass_vehicle_adv.
  - by apply accrue_wait_adv.
  - apply lane_adv_mono with 0; [|lia]. apply lane_adv_refl.
    destruct Hroom as [? _]. lia.
Qed.

Lemma ticks_lane_adv (lane_idx j n : nat) (l : Lane) :
  room (Z.of_nat n) l ->
  lane_adv (Z.of_nat n) l (for_loop n 0 (fun _ => tick_lane lane_idx j) l).
Proof.
  revert l. induction n as [|n IH]; intros l Hroom.
  - simpl. apply lane_adv_refl. destruct Hroom as [? _]. lia.
  - rewrite for_loop_const_S.
    assert (Hstep : lane_adv 1 l (tick_lane lane_idx j l)).
    { apply tick_lane_adv. apply room_weaken with (Z.of_nat (S n)); [done|lia]. }
    replace (Z.of_nat (S n)) with (1 + Z.of_nat n) by lia.
    apply lane_adv_trans with (tick_lane lane_idx j l); [done| |lia].
    apply IH. replace (Z.of_nat n) with (Z.of_nat (S n) - 1) by lia.
    apply room_after with l; [done|done|lia].
Qed.

Lemma lanes_adv_refl (it : Intersection) : lanes_room 0 it -> lanes_adv 0 it it.
Proof.
  intros Hroom j l Hl. exists l. split; [done|].
  apply lane_adv_refl. destruct (Hroom j l Hl) as [? _]. lia.
Qed.

Lemma lanes_adv_trans (t1 t2 : Z) (it it1 it2 : Intersection) :
  lanes_adv t1 it it1 -> lanes_adv t2 it1 it2 -> 0 <= t2 ->
  lanes_adv (t1 + t2) it it2.
Proof.
  intros H1 H2 Ht j l Hl.
  destruct (H1 j l Hl) as (l1 & Hl1 & Hadv1).
  destruct (H2 j l1 Hl1) as (l2 & Hl2 & Hadv2).
  exists l2. split; [done|]. by apply lane_adv_trans with l1.
Qed.

Lemma lanes_room_weaken (T t : Z) (it : Intersection) :
  lanes_room T it -> 0 <= t <= T -> lanes_room t it.
Proof.
  intros Hroom Ht j l Hl. apply room_weaken with T; [exact (Hroom j l Hl)|done].
Qed.

Lemma lanes_room_after (T t : Z) (it it' : Intersection) :
  length (lanes it') = length (lanes it) ->
  lanes_room T it -> lanes_adv t it it' -> 0 <= t <= T ->
  lanes_room (T - t) it'.
Proof.
  intros Hlen Hroom Hadv Ht j l' Hl'.
  destruct (lookup_lt_is_Some_2 (lanes it) j) as [l Hl].
  { rewrite <- Hlen. by apply lookup_lt_Some with l'. }
  destruct (Hadv j l Hl) as (l'' & Hl'' & Hstep).
  assert (l'' = l') as -> by congruence.
  apply room_after with l; [exact (Hroom j l Hl)|done|done].
Qed.

(** One green phase is at most [MAX_GREEN] seconds for every lane. *)
Lemma green_phase_adv (lane_idx : nat) (it : Intersection) :
  lanes_room MAX_GREEN it -> lanes_adv MAX_GREEN it (green_phase lane_idx it).
Proof.
  intros Hroom j l Hl. rewrite green_phase_lookup, Hl. simpl.
  eexists. split; [reflexivity|].
  pose proof (green_of_range (vehicles (lane_at it lane_idx))) as Hg.
  set (g := green_of (vehicles (lane_at it lane_idx))) in *.
  unfold BASE_GREEN in Hg.
  apply lane_adv_mono with (Z.of_nat (Z.to_nat g)); [|lia].
  apply ticks_lane_adv.
  apply room_weaken with MAX_GREEN; [exact (Hroom j l Hl)|lia].
Qed.

Lemma green_phases_adv (n start : nat) (it : Intersection) :
  lanes_room (MAX_GREEN * Z.of_nat n) it ->
  lanes_adv (MAX_GREEN * Z.of_nat n) it (for_loop n start green_phase it) /\
  name (for_loop n start green_phase it) = name it /\
  cycles (for_loop n start green_phase it) = cycles it /\
  length (lanes (for_loop n start green_phase it)) = length (lanes it).
Proof.
  revert start it. induction n as [|n IH]; intros start it Hroom.
  - simpl. split; [|done]. rewrite Z.mul_0_r in *. by apply lanes_adv_refl.
  - simpl for_loop.
    destruct (green_phase_frame start it) as (Hn & Hc & Hlen).
    assert (Hphase : lanes_adv MAX_GREEN it (green_phase start it)).
    { apply green_phase_adv. apply lanes_room_weaken with (MAX_GREEN * Z.of_nat (S n));
        [done|unfold MAX_GREEN; lia]. }
    destruct (IH (S start) (green_phase start it)) as (Hadv & Hn' & Hc' & Hlen').
    { replace (MAX_GREEN * Z.of_nat n)
        with (MAX_GREEN * Z.of_nat (S n) - MAX_GREEN) by lia.
      apply lanes_room_after with it; [done|done|done|unfold MAX_GREEN; lia]. }
    rewrite Hn', Hc', Hlen'. split; [|done].
    replace (MAX_GREEN * Z.of_nat (S n))
      with (MAX_GREEN + MAX_GREEN * Z.of_nat n) by lia.
    apply lanes_adv_trans with (green_phase start it); [done|done|].
    unfold MAX_GREEN. lia.
Qed.

Lemma run_one_cycle_unfold (it : Intersection) :
  run_one_cycle it
  = set_cycles (int_add (cycles (for_loop LANES 0 green_phase it)) 1)
      (for_loop LANES 0 green_phase it).
Proof. reflexivity. Qed.

Lemma lanes_run_one_cycle (it : Intersection) :
  lanes (run_one_cycle it) = lanes (for_loop LANES 0 green_phase it).
Proof. rewrite run_one_cycle_unfold. by destruct (for_loop LANES 0 green_phase it). Qed.

(** A cycle within its headroom: queues do not grow, the accumulators do
    not shrink, and nothing overflows. *)
Lemma run_one_cycle_adv (it : Intersection) :
  lanes_room CYCLE_SECS it ->
  lanes_adv CYCLE_SECS it (run_one_cycle it) /\
  length (lanes (run_one_cycle it)) = length (lanes it).
Proof.
  intros Hroom.
  change (lanes_room (MAX_GREEN * Z.of_nat LANES) it) in Hroom.
  destruct (green_phases_adv LANES 0 it Hroom) as (Hadv & _ & _ & Hlen).
  unfold lanes_adv. rewrite lanes_run_one_cycle.
  split; [exact Hadv|exact Hlen].
Qed.

(** ** Arrival injector *)

Section Arrivals.

Variable rand_seq : nat -> Z.

(** The injector never exits; it draws [LANES] times and updates the lanes
    in ascending order. *)
Lemma random_arrival_run (it : Intersection) (w : World) :
  random_arrival_between_cycles rand_seq it w
  = (Continue
       (for_loop LANES 0
          (fun i it =>
             update_lane i
               (add_arrival (arrival_of (rand_seq (w_rand w + i)))) it)
          it),
     {| w_input := w_input w; w_rand := w_rand w + LANES;
        w_malloc := w_malloc w; w_out := w_out w; w_file := w_file w;
        w_freed := w_freed w |}).
Proof.
  destruct w as [inp r m out file freed].
  cbv [random_arrival_between_cycles LANES for_loopM for_loop bind rand ret].
  cbn [w_rand w_input w_malloc w_out w_file w_freed].
  repeat f_equal; lia.
Qed.

Lemma arrival_loop_lookup (a : nat -> Z) (n start j : nat) (it : Intersection) :
  lanes (for_loop n start (fun i it => update_lane i (add_arrival (a i)) it) it)
    !! j
  = (if decide (start <= j < start + n)%nat then add_arrival (a j) else id)
      <$> lanes it !! j.
Proof.
  revert start it. induction n as [|n IH]; intros start it; simpl.
  - rewrite decide_False by lia. by rewrite option_fmap_id.
  - rewrite IH, lookup_update_lane.
    destruct (lanes it !! j); simpl; [|done].
    repeat case_decide; subst; try lia; done.
Qed.

Lemma arrival_loop_frame (a : nat -> Z) (n start : nat) (it : Intersection) :
  let it' := for_loop n start
               (fun i it => update_lane i (add_arrival (a i)) it) it in
  name it' = name it /\ cycles it' = cycles it /\
  length (lanes it') = length (lanes it).
Proof.
  revert start it. induction n as [|n IH]; intros start it; simpl; [done|].
  destruct (IH (S start) (update_lane start (add_arrival (a start)) it))
    as (Hn & Hc & Hl).
  rewrite Hn, Hc, Hl. simpl. by rewrite length_alter.
Qed.

Lemma arrival_of_range (r : Z) : 0 <= r -> 0 <= arrival_of r <= 3.
Proof.
  intros Hr. unfold arrival_of. rewrite Z.rem_mod_nonneg by lia.
  pose proof (Z.mod_pos_bound r 4). lia.
Qed.

End Arrivals.

(** ** Invariants along a run *)

Lemma headroom_room (n : Z) (l : Lane) :
  0 <= n -> headroom (n + 1) l -> room CYCLE_SECS l.
Proof.
  unfold headroom, room, CYCLE_SECS. intros Hn (Hv & Hv' & Hs & Hs' & Hw & Hw').
  repeat split; nia.
Qed.

Lemma headroom_after_cycle (n : Z) (l l' : Lane) :
  0 <= n -> headroom (n + 1) l -> lane_adv CYCLE_SECS l l' -> headroom n l'.
Proof.
  unfold headroom, lane_adv, CYCLE_SECS.
  intros Hn (Hv & Hv' & Hs & Hs' & Hw & Hw') (Hv1 & Hs1 & Hw1).
  repeat split; nia.
Qed.

Lemma headroom_after_arrival (n a : Z) (l : Lane) :
  0 <= n -> 0 <= a <= 3 -> headroom (n + 1) l ->
  headroom n (add_arrival a l) /\ vehicles (add_arrival a l) = vehicles l + a.
Proof.
  unfold headroom, add_arrival, CYCLE_SECS, INT_MAX; simpl.
  intros Hn Ha (Hv & Hv' & Hs & Hs' & Hw & Hw').
  unfold int_add.
  rewrite wrap_int_id by (unfold is_int, INT_MIN, INT_MAX; lia).
  repeat split; nia.
Qed.

Lemma apply_op_step (rand_seq : nat -> Z) (op : Op) (it : Intersection)
    (w : World) (n : Z) :
  rand_contract rand_seq ->
  0 <= n ->
  (forall j l, lanes it !! j = Some l -> headroom (n + 1) l) ->
  exists it1 w1,
    apply_op rand_seq op it w = (Continue it1, w1) /\
    length (lanes it1) = length (lanes it) /\
    forall j l, lanes it !! j = Some l ->
      exists l1, lanes it1 !! j = Some l1 /\ headroom n l1 /\
        vehicles_served l <= vehicles_served l1 /\
        total_wait_secs l <= total_wait_secs l1.
Proof.
  intros rand_ok Hn Hhead. destruct op; simpl.
  - exists (run_one_cycle it), w. split; [reflexivity|].
    destruct (run_one_cycle_adv it) as [Hadv Hlen].
    { intros j l Hl. apply headroom_room with n; [done|]. by apply Hhead with j. }
    split; [done|]. intros j l Hl.
    destruct (Hadv j l Hl) as (l1 & Hl1 & Hstep).
    exists l1. split; [done|]. split.
    + apply headroom_after_cycle with l; [done| |done]. by apply Hhead with j.
    + unfold lane_adv in Hstep. lia.
  - rewrite random_arrival_run. eexists _, _. split; [reflexivity|].
    split; [apply arrival_loop_frame|].
    intros j l Hl.
    rewrite (arrival_loop_lookup
               (fun i => arrival_of (rand_seq (w_rand w + i)%nat))), Hl.
    simpl. eexists. split; [reflexivity|].
    case_decide; simpl.
    + destruct (headroom_after_arrival n
                  (arrival_of (rand_seq (w_rand w + j)%nat)) l) as [Hh _];
        [done| |by apply Hhead with j|].
      * apply arrival_of_range. apply rand_ok.
      * split; [done|]. simpl. lia.
    + split; [|lia]. pose proof (Hhead j l Hl) as Hh. revert Hh.
      unfold headroom, CYCLE_SECS. intros (Hv & Hv' & Hs & Hs' & Hw & Hw').
      repeat split; nia.
Qed.

Lemma sample_rand_contract : rand_contract sample_rand.
Proof.
  intros k. unfold sample_rand, RAND_MAX.
  pose proof (Z.mod_pos_bound (Z.of_nat k * 1103515245 + 12345) 2147483648).
  lia.
Qed.

Lemma ones_rand_contract : rand_contract ones_rand.
Proof. intros k. unfold ones_rand, RAND_MAX. lia. Qed.

Lemma scenario_headroom (j : nat) (l : Lane) :
  lanes scenario !! j = Some l -> headroom 3 l.
Proof.
  destruct j as [|[|[|[|j]]]]; simpl; intros Hl; try discriminate;
    injection Hl as <-; unfold headroom, CYCLE_SECS, INT_MAX, LONG_MIN, LONG_MAX;
    simpl; lia.
Qed.

(** C2, as stated, fails: all counters are non-negative, a lane holds
    [INT_MAX] vehicles, one arrival is injected, and the count is
    negative. *)
Lemma run_ops_overflow :
  rand_contract ones_rand /\
  Forall (fun l => 0 <= vehicles l /\ 0 <= vehicles_served l /\
                   0 <= total_wait_secs l) (lanes full_lane) /\
  exists it' w',
    run_ops ones_rand [OpArrivals] full_lane (initial_world [])
      = (Continue it', w') /\
    vehicles (lane_at it' 0) = -2147483648 /\
    ~ (0 <= vehicles (lane_at it' 0)).
Proof.
  split; [apply ones_rand_contract|]. split.
  - unfold full_lane; simpl. repeat constructor; simpl; lia.
  - eexists _, _. split; [vm_compute; reflexivity|]. split; [reflexivity|].
    vm_compute. intros H. apply H. reflexivity.
Qed.

(** C2, amended: take a state whose lanes have non-negative counters with
    headroom for [n] operations ([vehicles + 3 n <= INT_MAX],
    [vehicles_served + 160 n <= LONG_MAX],
    [total_wait_secs + 160 n (vehicles + 3 n) <= LONG_MAX]).  Then any
    sequence of [n] cycles and arrival injections runs to its end, every
    lane still has [vehicles >= 0], and [vehicles_served] and
    [total_wait_secs] of every lane are at least what they were. *)
Theorem run_ops_preserves (rand_seq : nat -> Z) (ops : list Op)
    (it : Intersection) (w : World) :
  rand_contract rand_seq ->
  (forall j l, lanes it !! j = Some l -> headroom (Z.of_nat (length ops)) l) ->
  exists it' w',
    run_ops rand_seq ops it w = (Continue it', w') /\
    length (lanes it') = length (lanes it) /\
    forall j l, lanes it !! j = Some l ->
      exists l', lanes it' !! j = Some l' /\
        0 <= vehicles l' /\
        vehicles_served l <= vehicles_served l' /\
        total_wait_secs l <= total_wait_secs l'.
Proof.
  intros Hrand. revert it w.
  induction ops as [|op ops IH]; intros it w Hhead.
  - exists it, w. split; [reflexivity|]. split; [done|].
    intros j l Hl. exists l. split; [done|].
    destruct (Hhead j l Hl) as [Hv _]. lia.
  - simpl length in Hhead.
    replace (Z.of_nat (S (length ops))) with (Z.of_nat (length ops) + 1)
      in Hhead by lia.
    destruct (apply_op_step rand_seq op it w (Z.of_nat (length ops)))
      as (it1 & w1 & Hrun & Hlen & Hstep); [done|lia|done|].
    destruct (IH it1 w1) as (it' & w' & Hrun' & Hlen' & Hrest).
    { intros j l1 Hl1.
      destruct (lookup_lt_is_Some_2 (lanes it) j) as [l Hl].
      { rewrite <- Hlen. by apply lookup_lt_Some with l1. }
      destruct (Hstep j l Hl) as (l1' & Hl1' & Hh & _).
      congruence. }
    exists it', w'. split.
    { simpl. unfold bind. by rewrite Hrun. }
    split; [congruence|].
    intros j l Hl.
    destruct (Hstep j l Hl) as (l1 & Hl1 & _ & Hs & Hw).
    destruct (Hrest j l1 Hl1) as (l' & Hl' & Hv' & Hs' & Hw').
    exists l'. split; [done|]. lia.
Qed.

Lemma run_ops_preserves_witness :
  exists it' w',
    run_ops sample_rand [OpCycle; OpArrivals; OpCycle] scenario
      (initial_world []) = (Continue it', w') /\
    length (lanes it') = length (lanes scenario) /\
    forall j l, lanes scenario !! j = Some l ->
      exists l', lanes it' !! j = Some l' /\
        0 <= vehicles l' /\
        vehicles_served l <= vehicles_served l' /\
        total_wait_secs l <= total_wait_secs l'.
Proof.
  apply (run_ops_preserves sample_rand [OpCycle; OpArrivals; OpCycle]
           scenario (initial_world [])).
  - exact sample_rand_contract.
  - exact scenario_headroom.
Defined.

(** C7, as stated, fails: a lane holds [INT_MAX] vehicles, the generator
    draws 1, and the lane is left with [INT_MIN] vehicles, which is its
    count plus none of 0, 1, 2, 3. *)
Lemma random_arrival_overflow :
  rand_contract ones_rand /\
  vehicles (lane_at full_lane 0) = 2147483647 /\
  exists it' w',
    random_arrival_between_cycles ones_rand full_lane (initial_world [])
      = (Continue it', w') /\
    vehicles (lane_at it' 0) = -2147483648 /\
    forall a : Z,
      a ∈ [0; 1; 2; 3] ->
      vehicles (lane_at it' 0) <> vehicles (lane_at full_lane 0) + a.
Proof.
  split; [apply ones_rand_contract|]. split; [reflexivity|].
  eexists _, _. split; [vm_compute; reflexivity|]. split; [reflexivity|].
  intros a Ha Heq. change (-2147483648 = 2147483647 + a) in Heq.
  rewrite !elem_of_cons, elem_of_nil in Ha. lia.
Qed.

(** C7, amended: whatever the generator draws, the injector runs to its
    end, leaves the name and the cycle counter alone, and gives lane [j]
    of the 4 lanes [rand() % 4] more vehicles, a number in [{0, 1, 2, 3}]
    taken from the [j]-th draw of this call, provided the lane holds at
    most [INT_MAX - 3] vehicles; beyond that the [int] sum wraps.  Waiting
    time and vehicles served do not change in any state. *)
Theorem random_arrival_adds (rand_seq : nat -> Z) (it : Intersection)
    (w : World) :
  rand_contract rand_seq ->
  exists it' w',
    random_arrival_between_cycles rand_seq it w = (Continue it', w') /\
    name it' = name it /\ cycles it' = cycles it /\
    length (lanes it') = length (lanes it) /\
    forall (j : nat) (l : Lane),
      (j < LANES)%nat -> lanes it !! j = Some l ->
      let a := Z.rem (rand_seq (w_rand w + j)%nat) 4 in
      a ∈ [0; 1; 2; 3] /\
      lanes it' !! j
        = Some {| vehicles := int_add (vehicles l) a;
                  total_wait_secs := total_wait_secs l;
                  vehicles_served := vehicles_served l |} /\
      (INT_MIN <= vehicles l <= INT_MAX - 3 ->
       lanes it' !! j
       = Some {| vehicles := vehicles l + a;
                 total_wait_secs := total_wait_secs l;
                 vehicles_served := vehicles_served l |}).
Proof.
  intros Hrand. rewrite random_arrival_run. eexists _, _.
  split; [reflexivity|].
  destruct (arrival_loop_frame
              (fun i => arrival_of (rand_seq (w_rand w + i)%nat)) LANES 0 it)
    as (Hn & Hc & Hlen).
  split; [done|]. split; [done|]. split; [done|].
  intros j l Hj Hl a.
  assert (Ha : 0 <= a <= 3) by (apply arrival_of_range, Hrand).
  assert (Hlane :
            lanes
              (for_loop LANES 0
                 (fun i it0 =>
                    update_lane i
                      (add_arrival (arrival_of (rand_seq (w_rand w + i)%nat)))
                      it0) it) !! j
            = Some {| vehicles := int_add (vehicles l) a;
                      total_wait_secs := total_wait_secs l;
                      vehicles_served := vehicles_served l |}).
  { rewrite (arrival_loop_lookup
               (fun i => arrival_of (rand_seq (w_rand w + i)%nat))), Hl.
    simpl. by rewrite decide_True by lia. }
  split; [|split].
  - rewrite !elem_of_cons. lia.
  - exact Hlane.
  - intros Hv. rewrite Hlane. do 2 f_equal. unfold int_add.
    apply wrap_int_id. unfold is_int, INT_MIN, INT_MAX in *. lia.
Qed.

Lemma random_arrival_adds_witness :
  exists it' w',
    random_arrival_between_cycles sample_rand scenario (initial_world [])
      = (Continue it', w') /\
    name it' = name scenario /\ cycles it' = cycles scenario /\
    lanes it' !! 0%nat
    = Some {| vehicles := 3; total_wait_secs := 0; vehicles_served := 0 |}.
Proof.
  destruct (random_arrival_adds sample_rand scenario (initial_world []))
    as (it' & w' & Hrun & Hn & Hc & _ & Hlanes).
  - exact sample_rand_contract.
  - exists it', w'. split; [exact Hrun|]. split; [exact Hn|].
    split; [exact Hc|].
    destruct (Hlanes 0%nat
                {| vehicles := 2; total_wait_secs := 0; vehicles_served := 0 |})
      as (_ & _ & Hexact).
    + unfold LANES. lia.
    + reflexivity.
    + apply Hexact. unfold INT_MIN, INT_MAX. simpl. lia.
Defined.

(** ** The cycle counter *)

Lemma for_loop_S {St : Type} (body : nat -> St -> St) (n start : nat) (s : St) :
  for_loop (S n) start body s = for_loop n (S start) body (body start s).
Proof. reflexivity. Qed.

Lemma green_phases_unroll (it : Intersection) :
  for_loop LANES 0 green_phase it = four_phases it.
Proof. unfold LANES, four_phases. by rewrite !for_loop_S. Qed.

Lemma four_phases_cycles (it : Intersection) : cycles (four_phases it) = cycles it.
Proof.
  unfold four_phases.
  destruct (green_phase_frame 3 (green_phase 2 (green_phase 1 (green_phase 0 it))))
    as (_ & -> & _).
  destruct (green_phase_frame 2 (green_phase 1 (green_phase 0 it)))
    as (_ & -> & _).
  destruct (green_phase_frame 1 (green_phase 0 it)) as (_ & -> & _).
  by destruct (green_phase_frame 0 it) as (_ & -> & _).
Qed.

Lemma cycles_run_one_cycle (it : Intersection) :
  cycles (run_one_cycle it) = int_add (cycles it) 1.
Proof.
  rewrite run_one_cycle_unfold, green_phases_unroll.
  unfold set_cycles. cbn [cycles]. by rewrite four_phases_cycles.
Qed.

(** C8, as stated, fails: an intersection that has counted [INT_MAX]
    cycles counts [INT_MIN] after one more, not one more than before. *)
Lemma run_one_cycle_counter_overflow :
  is_int (cycles last_cycle) /\
  cycles last_cycle = 2147483647 /\
  cycles (run_one_cycle last_cycle) = -2147483648 /\
  cycles (run_one_cycle last_cycle) <> cycles last_cycle + 1.
Proof.
  split; [unfold is_int, INT_MIN, INT_MAX; simpl; lia|].
  split; [reflexivity|].
  assert (Hc : cycles (run_one_cycle last_cycle) = -2147483648)
    by (vm_compute; reflexivity).
  split; [exact Hc|]. rewrite Hc. simpl. lia.
Qed.

(** C8, amended: a cycle is the green phases of lanes 0, 1, 2, 3 in this
    order, none of which touches the cycle counter, followed by one
    increment of the counter: the [int] increment, which is one more than
    before for every counter below [INT_MAX]. *)
Theorem run_one_cycle_increments (it : Intersection) :
  run_one_cycle it = set_cycles (int_add (cycles it) 1) (four_phases it) /\
  (forall i it0, cycles (green_phase i it0) = cycles it0) /\
  cycles (run_one_cycle it) = int_add (cycles it) 1 /\
  (INT_MIN <= cycles it < INT_MAX -> cycles (run_one_cycle it) = cycles it + 1).
Proof.
  assert (Hrun : run_one_cycle it
                 = set_cycles (int_add (cycles it) 1) (four_phases it)).
  { rewrite run_one_cycle_unfold, green_phases_unroll.
    by rewrite four_phases_cycles. }
  split; [done|]. split; [intros i it0; apply green_phase_frame|].
  rewrite Hrun. split; [reflexivity|]. intros Hc. simpl.
  unfold int_add. apply wrap_int_id. unfold is_int, INT_MIN, INT_MAX in *. lia.
Qed.

Lemma run_one_cycle_increments_witness :
  cycles (run_one_cycle scenario) = cycles scenario + 1.
Proof.
  apply (run_one_cycle_increments scenario).
  unfold INT_MIN, INT_MAX. simpl. lia.
Defined.

(** ** The worked scenario *)

(** C1: from lanes [[2, 0, 5, 1]] with every accumulator and the cycle
    counter at zero, lane 0 is green for 9 seconds; it is empty after 2 of
    them, with 2 vehicles served, and stays so; at the end of its phase
    lane 2 has accrued 45 wait-seconds, lane 3 has accrued 9 and lane 1
    none; after the four phases the queues are [[0, 0, 0, 0]], the
    vehicles served [[2, 0, 5, 1]], the wait-seconds [[0, 0, 70, 29]] and
    the cycle counter is 1. *)
Theorem scenario_one_cycle :
  calculate_green_time (vehicles (lane_at scenario 0)) = 9 /\
  green_of (vehicles (lane_at scenario 0)) = 9 /\
  lane_at (for_loop 1 0 (fun _ => tick 0) scenario) 0
    = {| vehicles := 1; total_wait_secs := 0; vehicles_served := 1 |} /\
  Forall (fun k => lane_at (for_loop k 0 (fun _ => tick 0) scenario) 0
                   = {| vehicles := 0; total_wait_secs := 0;
                        vehicles_served := 2 |})
    [2; 3; 4; 5; 6; 7; 8; 9]%nat /\
  lanes (green_phase 0 scenario)
    = [ {| vehicles := 0; total_wait_secs := 0; vehicles_served := 2 |};
        {| vehicles := 0; total_wait_secs := 0; vehicles_served := 0 |};
        {| vehicles := 5; total_wait_secs := 45; vehicles_served := 0 |};
        {| vehicles := 1; total_wait_secs := 9; vehicles_served := 0 |} ] /\
  run_one_cycle scenario
    = {| name := "Main_1";
         lanes :=
           [ {| vehicles := 0; total_wait_secs := 0; vehicles_served := 2 |};
             {| vehicles := 0; total_wait_secs := 0; vehicles_served := 0 |};
             {| vehicles := 0; total_wait_secs := 70; vehicles_served := 5 |};
             {| vehicles := 0; total_wait_secs := 29; vehicles_served := 1 |} ];
         cycles := 1 |}.
Proof.
  split; [reflexivity|]. split; [reflexivity|]. split; [reflexivity|].
  split; [repeat constructor|]. split; vm_compute; reflexivity.
Qed.

(** ** Accuracy of the [double] average

    Integers below [2 ^ 53] convert to [double] exactly, and the division
    of two such numbers is followed through [SFdiv]: the quotient of the
    two 53-digit mantissas has 53 or 54 digits, is rounded to 53, and ends
    within one unit in the last place of the exact quotient. *)

Lemma digits2_pos_bounds (p : positive) :
  2 ^ (Zpos (digits2_pos p) - 1) <= Zpos p < 2 ^ Zpos (digits2_pos p).
Proof.
  induction p as [p IH|p IH|]; cbn [digits2_pos].
  - rewrite Pos2Z.inj_succ.
    replace (Z.succ (Zpos (digits2_pos p)) - 1) with (Z.succ (Zpos (digits2_pos p) - 1)) by lia.
    rewrite !Z.pow_succ_r by lia. lia.
  - rewrite Pos2Z.inj_succ.
    replace (Z.succ (Zpos (digits2_pos p)) - 1) with (Z.succ (Zpos (digits2_pos p) - 1)) by lia.
    rewrite !Z.pow_succ_r by lia. lia.
  - simpl. lia.
Qed.

Lemma digits2_pos_unique (p : positive) (d : Z) :
  2 ^ (d - 1) <= Zpos p < 2 ^ d -> 1 <= d -> Zpos (digits2_pos p) = d.
Proof.
  intros Hd Hd1. pose proof (digits2_pos_bounds p) as Hp.
  destruct (Z.lt_trichotomy (Zpos (digits2_pos p)) d) as [Hlt|[Heq|Hgt]]; [|done|].
  - assert (2 ^ Zpos (digits2_pos p) <= 2 ^ (d - 1)) by (apply Z.pow_le_mono_r; lia). lia.
  - assert (2 ^ d <= 2 ^ (Zpos (digits2_pos p) - 1)) by (apply Z.pow_le_mono_r; lia). lia.
Qed.

Lemma iter_xO_value (p : positive) (n : positive) :
  Zpos (Pos.iter xO p n) = Zpos p * 2 ^ Zpos n.
Proof.
  revert p. induction n as [|n IH] using Pos.peano_ind; intros p.
  - simpl. lia.
  - rewrite Pos.iter_succ, Pos2Z.inj_succ, Z.pow_succ_r by lia.
    rewrite Pos2Z.inj_xO, IH. lia.
Qed.

Lemma shr_fexp_canonical (m : positive) (e : Z) (l : location) :
  Zpos (digits2_pos m) = 53 -> -1074 <= e ->
  shr_fexp 53 1024 (Zpos m) e l = (shr_record_of_loc (Zpos m) l, e).
Proof.
  intros Hd He. unfold shr_fexp, Zdigits2. rewrite Hd.
  unfold fexp, emin.
  replace (Z.max (53 + e - 53) (3 - 1024 - 53) - e) with 0 by lia.
  reflexivity.
Qed.

Lemma shr_fexp_carry (m : positive) (e : Z) (l : location) :
  Zpos (digits2_pos m) = 54 -> -1074 <= e ->
  shr_fexp 53 1024 (Zpos m) e l = (shr_1 (shr_record_of_loc (Zpos m) l), e + 1).
Proof.
  intros Hd He. unfold shr_fexp, Zdigits2. rewrite Hd.
  unfold fexp, emin.
  replace (Z.max (54 + e - 53) (3 - 1024 - 53) - e) with 1 by lia.
  reflexivity.
Qed.

Lemma binary_round_aux_canonical (s : bool) (m : positive) (e : Z) :
  Zpos (digits2_pos m) = 53 -> -1074 <= e <= 971 ->
  binary_round_aux 53 1024 s (Zpos m) e loc_Exact = S754_finite s m e.
Proof.
  intros Hd He. unfold binary_round_aux.
  rewrite shr_fexp_canonical by (done || lia). cbn [shr_record_of_loc shr_m loc_of_shr_record round_nearest_even].
  rewrite shr_fexp_canonical by (done || lia). cbn [shr_record_of_loc shr_m].
  destruct (Z.leb_spec e (1024 - 53)); [done|lia].
Qed.

(** The conversion of a positive integer below [2 ^ 53] is exact. *)
Lemma double_of_long_exact (z : Z) :
  0 < z < 2 ^ 53 ->
  exists (m : positive) (e : Z),
    double_of_long z = S754_finite false m e /\
    Zpos (digits2_pos m) = 53 /\ -52 <= e <= 0 /\
    Zpos m = z * 2 ^ (- e).
Proof.
  intros Hz. destruct z as [|p|p]; try lia.
  pose proof (digits2_pos_bounds p) as Hp.
  set (d := Zpos (digits2_pos p)) in *.
  assert (Hd : 1 <= d <= 53).
  { split; [unfold d; lia|].
    destruct (Z.le_gt_cases d 53) as [|Hgt]; [done|].
    assert (2 ^ 53 <= 2 ^ (d - 1)) by (apply Z.pow_le_mono_r; lia).
    lia. }
  unfold double_of_long, binary_normalize, binary_round, shl_align.
  fold d. unfold fexp, emin, prec, emax.
  replace (Z.max (d + 0 - 53) (3 - 1024 - 53) - 0) with (d - 53) by lia.
  replace (Z.max (d + 0 - 53) (3 - 1024 - 53)) with (d - 53) by lia.
  destruct (d - 53) as [|k|k] eqn:Hk; try lia.
  - exists p, 0. rewrite binary_round_aux_canonical by (fold d; lia).
    split; [done|]. split; [fold d; lia|]. split; [lia|]. simpl. lia.
  - exists (Pos.iter xO p k), (Zneg k).
    assert (Hval : Zpos (Pos.iter xO p k) = Zpos p * 2 ^ Zpos k) by apply iter_xO_value.
    assert (Hdig : Zpos (digits2_pos (Pos.iter xO p k)) = 53).
    { apply digits2_pos_unique; [|lia]. rewrite Hval.
      replace 53 with (d + Zpos k) by lia.
      replace (d + Zpos k - 1) with ((d - 1) + Zpos k) by lia.
      rewrite !Z.pow_add_r by lia.
      assert (0 < 2 ^ Zpos k) by (apply Z.pow_pos_nonneg; lia). nia. }
    rewrite binary_round_aux_canonical by (done || lia).
    split; [done|]. split; [done|]. split; [lia|].
    rewrite Hval. reflexivity.
Qed.

Lemma shr_m_of_loc (m : Z) (l : location) : shr_m (shr_record_of_loc m l) = m.
Proof. by destruct l as [|[| |]]. Qed.

Lemma loc_of_shr_record_of_loc (m : Z) (l : location) :
  loc_of_shr_record (shr_record_of_loc m l) = l.
Proof. by destruct l as [|[| |]]. Qed.

Lemma round_nearest_even_cases (m : Z) (l : location) :
  round_nearest_even m l = m \/ round_nearest_even m l = m + 1.
Proof.
  destruct l as [|[| |]]; simpl; auto. destruct (Z.even m); auto.
Qed.

Lemma shr_1_halves (p : positive) (l : location) :
  2 <= Zpos p ->
  Zpos p - 1 <= 2 * shr_m (shr_1 (shr_record_of_loc (Zpos p) l)) <= Zpos p.
Proof.
  intros Hp. destruct p as [p|p|]; [| |lia]; destruct l as [|[| |]]; simpl; lia.
Qed.

(** The last step of [binary_round_aux]: a mantissa of 53 digits stays, and
    [2 ^ 53] is renormalised. *)
Lemma round_finish (s : bool) (q : Z) (e : Z) :
  2 ^ 52 <= q <= 2 ^ 53 -> -1074 <= e <= 970 ->
  exists (M : positive) (j : Z),
    (let '(mrs, e') := shr_fexp 53 1024 q e loc_Exact in
     match shr_m mrs with
     | Z0 => S754_zero s
     | Zpos m => if Z.leb e' (1024 - 53) then S754_finite s m e'
                 else S754_infinity s
     | _ => S754_nan
     end) = S754_finite s M (e + j) /\
    0 <= j <= 1 /\ Zpos M * 2 ^ j = q.
Proof.
  intros Hq He. destruct (Z.eq_dec q (2 ^ 53)) as [->|Hne].
  - change (2 ^ 53) with 9007199254740992.
    exists 4503599627370496%positive, 1.
    rewrite shr_fexp_carry by (reflexivity || lia).
    change (shr_m (shr_1 (shr_record_of_loc 9007199254740992 loc_Exact)))
      with 4503599627370496.
    destruct (Z.leb_spec (e + 1) (1024 - 53)); [|lia].
    split; [done|]. split; [lia|]. reflexivity.
  - destruct q as [|p|p]; try lia. exists p, 0.
    rewrite shr_fexp_canonical; [|apply digits2_pos_unique; lia|lia].
    rewrite shr_m_of_loc.
    destruct (Z.leb_spec e (1024 - 53)); [|lia].
    rewrite Z.add_0_r. split; [done|]. split; [lia|]. simpl. lia.
Qed.

Lemma binary_round_aux_quotient (s : bool) (pq : positive) (e : Z) (l : location) :
  2 ^ 52 <= Zpos pq < 2 ^ 54 -> -1074 <= e <= 960 ->
  exists (M : positive) (j : Z),
    binary_round_aux 53 1024 s (Zpos pq) e l = S754_finite s M (e + j) /\
    0 <= j <= 2 /\
    Zpos pq + 1 - 2 ^ j <= Zpos M * 2 ^ j <= Zpos pq + 2 ^ j.
Proof.
  intros Hq He. unfold binary_round_aux.
  destruct (Z.lt_ge_cases (Zpos pq) (2 ^ 53)) as [Hlt|Hge].
  - rewrite shr_fexp_canonical; [|apply digits2_pos_unique; lia|lia].
    cbv beta iota. rewrite shr_m_of_loc, loc_of_shr_record_of_loc.
    destruct (round_finish s (round_nearest_even (Zpos pq) l) e)
      as (M & j & Heq & Hj & HM); [|lia|].
    { destruct (round_nearest_even_cases (Zpos pq) l) as [-> | ->]; lia. }
    rewrite Heq. exists M, j. split; [done|]. split; [lia|].
    rewrite HM.
    assert (2 ^ j = 1 \/ 2 ^ j = 2) as [-> | ->].
    { assert (j = 0 \/ j = 1) as [-> | ->] by lia; auto. }
    all: destruct (round_nearest_even_cases (Zpos pq) l) as [-> | ->]; lia.
  - rewrite shr_fexp_carry; [|apply digits2_pos_unique; lia|lia].
    cbv beta iota.
    pose proof (shr_1_halves pq l) as Hhalf.
    set (mrs := shr_1 (shr_record_of_loc (Zpos pq) l)) in *.
    destruct (round_finish s (round_nearest_even (shr_m mrs) (loc_of_shr_record mrs))
                (e + 1)) as (M & j & Heq & Hj & HM); [|lia|].
    { destruct (round_nearest_even_cases (shr_m mrs) (loc_of_shr_record mrs))
        as [-> | ->]; lia. }
    rewrite Heq. exists M, (1 + j). split; [f_equal; lia|]. split; [lia|].
    rewrite Z.pow_add_r by lia. change (2 ^ 1) with 2.
    assert (2 ^ j = 1 \/ 2 ^ j = 2) as [Hj2 | Hj2].
    { assert (j = 0 \/ j = 1) as [-> | ->] by lia; auto. }
    all: rewrite Hj2 in *.
    all: destruct (round_nearest_even_cases (shr_m mrs) (loc_of_shr_record mrs))
        as [Hr | Hr]; rewrite Hr in HM; lia.
Qed.

(** The quotient of two normal numbers of moderate exponents: the result
    is within one unit in the last place of the exact quotient. *)
Lemma SFdiv_normal (mx my : positive) (ex ey : Z) :
  Zpos (digits2_pos mx) = 53 -> Zpos (digits2_pos my) = 53 ->
  -52 <= ex <= 0 -> -52 <= ey <= 0 ->
  exists (M : positive) (j : Z),
    SFdiv 53 1024 (S754_finite false mx ex) (S754_finite false my ey)
      = S754_finite false M (ex - ey - 53 + j) /\
    0 <= j <= 2 /\
    Z.abs (Zpos M * 2 ^ j * Zpos my - Zpos mx * 2 ^ 53) <= 2 ^ j * Zpos my.
Proof.
  intros Hdx Hdy Hex Hey.
  pose proof (digits2_pos_bounds mx) as Hmx. rewrite Hdx in Hmx.
  pose proof (digits2_pos_bounds my) as Hmy. rewrite Hdy in Hmy.
  change (2 ^ (53 - 1)) with 4503599627370496 in *.
  change (2 ^ 53) with 9007199254740992 in *.
  unfold SFdiv, SFdiv_core_binary, Zdigits2. rewrite Hdx, Hdy.
  unfold fexp, emin.
  replace (Z.min (Z.max (53 + ex - (53 + ey) - 53) (3 - 1024 - 53)) (ex - ey))
    with (ex - ey - 53) by lia.
  replace (ex - ey - (ex - ey - 53)) with 53 by lia.
  rewrite Z.shiftl_mul_pow2 by lia.
  change (2 ^ 53) with 9007199254740992.
  pose proof (Z_div_mod (Zpos mx * 9007199254740992) (Zpos my) eq_refl) as Hdiv.
  destruct (Z.div_eucl (Zpos mx * 9007199254740992) (Zpos my)) as [q r].
  destruct Hdiv as [Hqr Hr].
  assert (Hq : 4503599627370496 <= q < 18014398509481984) by nia.
  destruct q as [|pq|pq]; try lia.
  destruct (binary_round_aux_quotient (xorb false false) pq (ex - ey - 53)
              (new_location (Zpos my) r))
    as (M & j & Heq & Hj & HM); [done|lia|].
  rewrite Heq. exists M, j. split; [done|]. split; [done|].
  assert (H2j : 1 <= 2 ^ j) by (apply (Z.pow_le_mono_r 2 0 j); lia).
  apply Z.abs_le. nia.
Qed.

Lemma within_tolerance_of_bound (M : positive) (E W : Z) (Sp : positive) :
  E <= -30 ->
  Z.abs (Zpos M * Zpos Sp - W * 2 ^ (- E)) <= Zpos Sp ->
  within_tolerance (S754_finite false M E) W Sp.
Proof.
  intros HE Hb. unfold within_tolerance, SF2Q.
  destruct E as [| |p]; try lia.
  change (- Zneg p) with (Zpos p) in Hb.
  assert (Hpow : (2 ^ Zneg p == 1 # (2 ^ p)%positive)%Q).
  { rewrite (Qpower_decomp_neg_pos p 2 1). by rewrite Z.pow_1_l by lia. }
  rewrite Hpow.
  assert (HD : 2 ^ 30 <= Zpos (2 ^ p)).
  { rewrite Pos2Z.inj_pow. apply Z.pow_le_mono_r; lia. }
  change (2 ^ 30) with 1073741824 in HD.
  rewrite Pos2Z.inj_pow in HD.
  unfold Qle, Qabs, Qminus, Qplus, Qopp, Qmult, inject_Z. cbn [Qnum Qden].
  rewrite !Pos2Z.inj_mul, Pos2Z.inj_pow.
  set (D := 2 ^ Zpos p) in *.
  nia.
Qed.

(** The quotient of two positive integers below [2 ^ 53] whose ratio is
    below [2 ^ 21]: the [double] computed has an exponent of at most -30
    and is within one unit in the last place of the ratio. *)
Lemma double_div_accuracy (W S : Z) :
  0 < W < 2 ^ 53 -> 0 < S < 2 ^ 53 -> W < S * 2 ^ 21 ->
  exists (M : positive) (E : Z),
    double_div (double_of_long W) (double_of_long S) = S754_finite false M E /\
    E <= -30 /\
    Z.abs (Zpos M * S - W * 2 ^ (- E)) <= S.
Proof.
  intros HW HS Hratio.
  destruct (double_of_long_exact W HW) as (mx & ex & -> & Hdx & Hex & Hmx).
  destruct (double_of_long_exact S HS) as (my & ey & -> & Hdy & Hey & Hmy).
  destruct (SFdiv_normal mx my ex ey Hdx Hdy Hex Hey)
    as (M & j & Hdiv & Hj & Hbound).
  exists M, (ex - ey - 53 + j). split; [exact Hdiv|].
  pose proof (digits2_pos_bounds mx) as Bx. rewrite Hdx in Bx.
  pose proof (digits2_pos_bounds my) as By. rewrite Hdy in By.
  change (2 ^ (53 - 1)) with 4503599627370496 in *.
  change (2 ^ 53) with 9007199254740992 in *.
  change (2 ^ 21) with 2097152 in *.
  assert (HA : 0 < 2 ^ (- ex)) by (apply Z.pow_pos_nonneg; lia).
  assert (HB : 0 < 2 ^ (- ey)) by (apply Z.pow_pos_nonneg; lia).
  assert (Hexp : ex - ey <= 21).
  { destruct (Z.le_gt_cases (ex - ey) 21) as [|Hgt]; [done|exfalso].
    assert (Hsplit : 2 ^ (- ey) = 2 ^ (- ex) * 2 ^ (ex - ey)).
    { rewrite <- Z.pow_add_r by lia. f_equal. lia. }
    assert (Hbig : 2 ^ 22 <= 2 ^ (ex - ey)) by (apply Z.pow_le_mono_r; lia).
    change (2 ^ 22) with 4194304 in Hbig. nia. }
  split; [lia|].
  replace (- (ex - ey - 53 + j)) with (53 - ex + ey - j) by lia.
  assert (H2j : 0 < 2 ^ j) by (apply Z.pow_pos_nonneg; lia).
  assert (HE : 0 < 2 ^ (53 - ex + ey - j)) by (apply Z.pow_pos_nonneg; lia).
  assert (Hsplit : 2 ^ (53 - ex + ey - j) * (2 ^ j * 2 ^ (- ey))
                   = 9007199254740992 * 2 ^ (- ex)).
  { rewrite <- !Z.pow_add_r by lia. change 9007199254740992 with (2 ^ 53).
    rewrite <- Z.pow_add_r by lia. f_equal. lia. }
  rewrite Hmx, Hmy in Hbound.
  set (A := 2 ^ (- ex)) in *. set (B := 2 ^ (- ey)) in *.
  set (J := 2 ^ j) in *. set (D := 2 ^ (53 - ex + ey - j)) in *.
  assert (Hfactor : Zpos M * J * (S * B) - W * A * 9007199254740992
                    = J * B * (Zpos M * S - W * D)) by nia.
  rewrite Hfactor, Z.abs_mul in Hbound.
  rewrite (Z.abs_eq (J * B)) in Hbound by nia.
  assert (0 < J * B) by nia. nia.
Qed.

(** The average of the summary, whenever both totals are below [2 ^ 53]
    and their quotient is below [2 ^ 21]. *)
Lemma average_within_tolerance (served wait : Z) :
  0 < served < 2 ^ 53 -> 0 <= wait < 2 ^ 53 -> wait < served * 2 ^ 21 ->
  within_tolerance (double_div (double_of_long wait) (double_of_long served))
    wait (Z.to_pos served).
Proof.
  intros Hs Hw Hratio. destruct (Z.eq_dec wait 0) as [->|Hne].
  - destruct (double_of_long_exact served Hs) as (my & ey & -> & _).
    change (double_of_long 0) with (S754_zero false).
    unfold within_tolerance, double_div, SFdiv, SF2Q, Qle, Qabs, Qminus,
      Qplus, Qopp, Qmult.
    cbn [Qnum Qden xorb]. lia.
  - destruct (double_div_accuracy wait served) as (M & E & -> & HE & Hb);
      [lia|done|done|].
    apply within_tolerance_of_bound; [done|].
    rewrite Z2Pos.id by lia. done.
Qed.

(** ** Statistics *)

Lemma summarize_unfold (it : Intersection) :
  summarize it
  = let served :=
      long_add (long_add (long_add (long_add 0
        (vehicles_served (lane_at it 0))) (vehicles_served (lane_at it 1)))
        (vehicles_served (lane_at it 2))) (vehicles_served (lane_at it 3)) in
    let wait :=
      long_add (long_add (long_add (long_add 0
        (total_wait_secs (lane_at it 0))) (total_wait_secs (lane_at it 1)))
        (total_wait_secs (lane_at it 2))) (total_wait_secs (lane_at it 3)) in
    {| st_name := name it; st_cycles := cycles it;
       total_served := served; total_wait := wait;
       avg_wait_per_vehicle :=
         if 0 <? served
         then double_div (double_of_long wait) (double_of_long served)
         else S754_zero false |}.
Proof. reflexivity. Qed.

Lemma long_add_sum (a b c d : Z) :
  long_add (long_add (long_add (long_add 0 a) b) c) d = wrap 64 (a + b + c + d).
Proof. rewrite !long_add_assoc. unfold long_add. f_equal. lia. Qed.

(** C5, as stated, fails: after one cycle from lanes
    [[3, 0, 0, 100000000]] the summary has 43 vehicles served and
    2100000000 wait-seconds, and the average computed in [double] is
    further than [1e-9] from [2100000000 / 43]. *)
Lemma summarize_tolerance_exceeded :
  let st := summarize (run_one_cycle long_queue) in
  total_served st = 43 /\ total_wait st = 2100000000 /\
  avg_wait_per_vehicle st = S754_finite false 6554819274418605 (-27) /\
  ~ within_tolerance (avg_wait_per_vehicle st) 2100000000 43.
Proof.
  split; [vm_compute; reflexivity|]. split; [vm_compute; reflexivity|].
  split; [vm_compute; reflexivity|].
  vm_compute. intros H. apply H. reflexivity.
Qed.

(** C5, amended: the summary's [total_served] and [total_wait_secs] are the
    sums over the 4 lanes reduced to [long], hence the sums themselves when
    these fit a [long]; [avg_wait_per_vehicle] is the [double] quotient of
    the two totals converted to [double] when [total_served > 0], and
    [+0.0] exactly when [total_served <= 0].  The average is within [1e-9]
    of the exact quotient whenever both totals are below [2 ^ 53] and the
    quotient is below [2 ^ 21]; for the counters of the worked scenario it
    is [99 / 8] exactly. *)
Theorem summarize_spec (it : Intersection) :
  let st := summarize it in
  st_cycles st = cycles it /\
  total_served st = wrap 64 (sum_lanes vehicles_served it) /\
  total_wait st = wrap 64 (sum_lanes total_wait_secs it) /\
  (is_long (sum_lanes vehicles_served it) ->
   total_served st = sum_lanes vehicles_served it) /\
  (is_long (sum_lanes total_wait_secs it) ->
   total_wait st = sum_lanes total_wait_secs it) /\
  (0 < total_served st ->
   avg_wait_per_vehicle st
   = double_div (double_of_long (total_wait st))
       (double_of_long (total_served st))) /\
  (total_served st <= 0 -> avg_wait_per_vehicle st = S754_zero false) /\
  (0 < total_served st < 2 ^ 53 -> 0 <= total_wait st < 2 ^ 53 ->
   total_wait st < total_served st * 2 ^ 21 ->
   within_tolerance (avg_wait_per_vehicle st) (total_wait st)
     (Z.to_pos (total_served st))) /\
  (exists q : Q,
     SF2Q (avg_wait_per_vehicle (summarize (run_one_cycle scenario))) = Some q /\
     (q == 99 # 8)%Q).
Proof.
  rewrite summarize_unfold. cbv zeta. cbn [st_cycles total_served total_wait
                                           avg_wait_per_vehicle].
  rewrite !long_add_sum. fold (sum_lanes vehicles_served it).
  fold (sum_lanes total_wait_secs it).
  set (served := wrap 64 (sum_lanes vehicles_served it)).
  set (wait := wrap 64 (sum_lanes total_wait_secs it)).
  split; [done|]. split; [done|]. split; [done|].
  split; [apply wrap_long_id|]. split; [apply wrap_long_id|].
  clearbody served wait.
  split; [|split; [|split]].
  - intros Hpos. by destruct (Z.ltb_spec 0 served); [|lia].
  - intros Hle. by destruct (Z.ltb_spec 0 served); [lia|].
  - intros Hs Hw Hratio. destruct (Z.ltb_spec 0 served); [|lia].
    by apply average_within_tolerance.
  - eexists. split; vm_compute; reflexivity.
Qed.

Lemma summarize_spec_witness :
  let st := summarize (run_one_cycle scenario) in
  total_served st = 8 /\ total_wait st = 99 /\
  avg_wait_per_vehicle st = double_div (double_of_long 99) (double_of_long 8) /\
  within_tolerance (avg_wait_per_vehicle st) 99 8 /\
  avg_wait_per_vehicle (summarize scenario) = S754_zero false.
Proof.
  pose proof (summarize_spec (run_one_cycle scenario))
    as (_ & _ & _ & Hs & Hw & Havg & _ & Htol & _).
  pose proof (summarize_spec scenario) as (_ & _ & _ & _ & _ & _ & Hzero & _).
  split; [|split; [|split; [|split]]].
  - rewrite Hs; [reflexivity|]. vm_compute. split; discriminate.
  - rewrite Hw; [reflexivity|]. vm_compute. split; discriminate.
  - rewrite Havg; [reflexivity|]. vm_compute. reflexivity.
  - apply Htol; vm_compute; (reflexivity || (split; (reflexivity || discriminate))).
  - apply Hzero. vm_compute. discriminate.
Defined.

(** ** The driver *)

Lemma clamp_max (v : Z) : (if v <? 0 then 0 else v) = Z.max 0 v.
Proof. destruct (Z.ltb_spec v 0); lia. Qed.

Section Driver.

Variable rand_seq : nat -> Z.
Variable malloc_ok : nat -> bool.
Variable fopen_ok : string -> bool.

Lemma main_unfold :
  main rand_seq malloc_ok fopen_ok
  = (it <- create_intersection malloc_ok "Main_1" ;;
     emit EvBanner ;;;
     it <- input_vehicle_counts it ;;
     main_after_input rand_seq fopen_ok it)%prog.
Proof. reflexivity. Qed.

(** Four numbers are read: each lane gets its number, a negative one
    replaced by 0, and nothing but the prompts is written. *)
Lemma input_vehicle_counts_run (it : Intersection) (w : World)
    (v0 v1 v2 v3 : Z) (tail : list (option Z)) :
  w_input w = Some v0 :: Some v1 :: Some v2 :: Some v3 :: tail ->
  input_vehicle_counts it w
  = (Continue
       (update_lane 3 (set_vehicles (Z.max 0 v3))
          (update_lane 2 (set_vehicles (Z.max 0 v2))
             (update_lane 1 (set_vehicles (Z.max 0 v1))
                (update_lane 0 (set_vehicles (Z.max 0 v0)) it)))),
     {| w_input := tail; w_rand := w_rand w; w_malloc := w_malloc w;
        w_out := w_out w ++ lane_prompts;
        w_file := w_file w; w_freed := w_freed w |}).
Proof.
  destruct w as [inp r m out file freed]. simpl. intros ->.
  cbv [input_vehicle_counts LANES for_loopM bind scanf_int ret emit w_input
       w_rand w_malloc w_out w_file w_freed].
  rewrite !clamp_max, <- !app_assoc. reflexivity.
Qed.

(** A read that fails among the first four ends the process. *)
Lemma input_vehicle_counts_exit (it : Intersection) (w : World) :
  (forall v0 v1 v2 v3 tail,
     w_input w <> Some v0 :: Some v1 :: Some v2 :: Some v3 :: tail) ->
  exists w',
    input_vehicle_counts it w = (Exited EXIT_FAILURE, w') /\
    last (w_out w') = Some (EvStderr "Invalid input. Exiting.").
Proof.
  destruct w as [inp r m out file freed]. simpl. intros Hbad.
  cbv [input_vehicle_counts LANES for_loopM bind scanf_int ret emit exit
       w_input w_rand w_malloc w_out w_file w_freed].
  destruct inp as [|[v0|] [|[v1|] [|[v2|] [|[v3|] tail]]]];
    try (eexists; split; [reflexivity|]; cbn [w_out]; by rewrite last_snoc).
  by destruct (Hbad v0 v1 v2 v3 tail).
Qed.

End Driver.

(** An event of one kind is not in a list of events of other kinds. *)
Ltac absent_event :=
  let Hin := fresh "Hin" in
  intros ? Hin;
  repeat (apply elem_of_cons in Hin as [Hin|Hin]; [discriminate Hin|]);
  by apply elem_of_nil in Hin.

Lemma seed_new_intersection (v0 v1 v2 v3 : Z) :
  update_lane 3 (set_vehicles v3)
    (update_lane 2 (set_vehicles v2)
       (update_lane 1 (set_vehicles v1)
          (update_lane 0 (set_vehicles v0) (new_intersection "Main_1"))))
  = seeded [v0; v1; v2; v3].
Proof. reflexivity. Qed.

(** C6: when the four lane counts have been read and the number of cycles
    is missing, is not a number or is not positive, [main] returns the
    failure status 1.  No cycle has started, no state has been printed, no
    arrival has been drawn and nothing has been appended to the statistics
    file; the intersection is released as the input left it, with no
    vehicle served, no waiting time and no cycle counted. *)
Theorem run_main_invalid_cycles (rand_seq : nat -> Z) (malloc_ok : nat -> bool)
    (fopen_ok : string -> bool) (v0 v1 v2 v3 : Z) (tail : list (option Z)) :
  invalid_count tail ->
  exists w',
    run_main rand_seq malloc_ok fopen_ok
      (initial_world (Some v0 :: Some v1 :: Some v2 :: Some v3 :: tail))
      = (EXIT_FAILURE, w') /\
    EXIT_FAILURE <> 0 /\
    (forall c, EvCycleStart c ∉ w_out w') /\
    (forall it, EvState it ∉ w_out w') /\
    w_rand w' = 0%nat /\ w_file w' = [] /\
    (malloc_ok 0%nat = true -> malloc_ok 1%nat = true ->
     w_out w'
       = EvBanner :: lane_prompts
         ++ [EvAskCycles; EvStderr "Invalid number of cycles. Exiting."] /\
     w_freed w'
       = [seeded [Z.max 0 v0; Z.max 0 v1; Z.max 0 v2; Z.max 0 v3]]).
Proof.
  intros Hbad. unfold run_main. rewrite main_unfold.
  cbv [create_intersection bind malloc emit exit ret initial_world negb
       w_input w_rand w_malloc w_out w_file w_freed].
  destruct (malloc_ok 0%nat); [destruct (malloc_ok 1%nat)|].
  - rewrite (input_vehicle_counts_run _ _ v0 v1 v2 v3 tail) by reflexivity.
    rewrite seed_new_intersection.
    cbv [main_after_input bind scanf_int emit destroy_intersection ret
         w_input w_rand w_malloc w_out w_file w_freed lane_prompts app].
    destruct tail as [|[c|] tail]; simpl in Hbad.
    2: destruct (Z.leb_spec c 0); [|lia].
    all: eexists; split; [reflexivity|]; split; [done|]; simpl.
    all: repeat split; try done; absent_event.
  - eexists; split; [reflexivity|]; split; [done|]; simpl.
    repeat split; try done; absent_event.
  - eexists; split; [reflexivity|]; split; [done|]; simpl.
    repeat split; try done; absent_event.
Qed.

Lemma run_main_invalid_cycles_witness :
  exists w',
    run_main sample_rand (fun _ => true) (fun _ => true)
      (initial_world [Some 2; Some 0; Some 5; Some 1; Some 0])
      = (EXIT_FAILURE, w') /\
    w_freed w' = [scenario].
Proof.
  destruct (run_main_invalid_cycles sample_rand (fun _ => true) (fun _ => true)
              2 0 5 1 [Some 0])
    as (w' & Hrun & _ & _ & _ & _ & _ & Hfreed).
  - simpl. lia.
  - exists w'. split; [exact Hrun|].
    destruct (Hfreed eq_refl eq_refl) as [_ ->]. reflexivity.
Defined.

Section ValidRun.

Variable rand_seq : nat -> Z.
Variable fopen_ok : string -> bool.

(** [n] passes of the loop of [main]: the loop does not exit, counts [n]
    cycles and draws [LANES] arrivals in each. *)
Lemma simulate_cycles_run (n start : nat) (it : Intersection) (w : World) :
  is_int (cycles it) ->
  exists it' w',
    for_loopM n start (simulate_cycle rand_seq) it w = (Continue it', w') /\
    cycles it' = int_add (cycles it) (Z.of_nat n) /\
    w_rand w' = (w_rand w + n * LANES)%nat /\
    w_file w' = w_file w /\ w_freed w' = w_freed w /\
    w_input w' = w_input w.
Proof.
  revert start it w. induction n as [|n IH]; intros start it w Hint.
  - exists it, w. split; [reflexivity|]. split.
    + unfold int_add. simpl. rewrite Z.add_0_r. symmetry. by apply wrap_int_id.
    + repeat split; simpl; try done; lia.
  - cbn [for_loopM]. unfold bind at 1.
    assert (Hbody : exists it1 w1,
               simulate_cycle rand_seq start it w = (Continue it1, w1) /\
               cycles it1 = int_add (cycles it) 1 /\
               w_rand w1 = (w_rand w + LANES)%nat /\
               w_file w1 = w_file w /\ w_freed w1 = w_freed w /\
               w_input w1 = w_input w).
    { cbv [simulate_cycle bind emit print_intersection_state ret].
      rewrite random_arrival_run. eexists _, _. split; [reflexivity|].
      cbn [w_rand w_file w_freed w_input]. repeat split; try done.
      destruct (arrival_loop_frame
                  (fun i => arrival_of (rand_seq (w_rand w + i)%nat)) LANES 0
                  (run_one_cycle it)) as (_ & -> & _).
      apply cycles_run_one_cycle. }
    destruct Hbody as (it1 & w1 & -> & Hc1 & Hr1 & Hf1 & Hd1 & Hi1).
    destruct (IH (S start) it1 w1) as (it' & w' & Hrun & Hc & Hr & Hf & Hd & Hi).
    { rewrite Hc1. apply wrap_int_range. }
    exists it', w'. split; [exact Hrun|].
    rewrite Hc, Hr, Hf, Hd, Hi, Hc1, Hr1. repeat split; try done; [|lia].
    unfold int_add. rewrite wrap_add_l. f_equal. lia.
Qed.

(** With a positive number of cycles the driver runs them all and returns
    the success status. *)
Lemma main_after_input_valid (it : Intersection) (w : World) (c : Z)
    (tail : list (option Z)) :
  0 < c <= INT_MAX -> cycles it = 0 ->
  w_input w = Some c :: tail ->
  exists it' w',
    main_after_input rand_seq fopen_ok it w = (Continue 0, w') /\
    w_freed w' = w_freed w ++ [it'] /\
    cycles it' = c /\
    w_rand w' = (w_rand w + Z.to_nat c * LANES)%nat /\
    w_file w'
      = w_file w ++ (if fopen_ok "traffic_stats.txt" then [summarize it'] else []).
Proof.
  intros Hc Hzero Hin.
  destruct (simulate_cycles_run (Z.to_nat c) 0 it
              {| w_input := tail; w_rand := w_rand w; w_malloc := w_malloc w;
                 w_out := w_out w ++ [EvAskCycles];
                 w_file := w_file w; w_freed := w_freed w |})
    as (it' & w' & Hrun & Hcyc & Hr & Hf & Hd & Hi).
  { rewrite Hzero. unfold is_int, INT_MIN, INT_MAX. lia. }
  cbn [w_rand w_file w_freed w_input] in Hr, Hf, Hd, Hi.
  assert (Hcycles : cycles it' = c).
  { rewrite Hcyc, Hzero, Z2Nat.id by lia. unfold int_add.
    apply wrap_int_id. unfold is_int, INT_MIN, INT_MAX in *. lia. }
  destruct (fopen_ok "traffic_stats.txt") eqn:Hfo; exists it'; eexists.
  all: split;
    [ cbv [main_after_input bind scanf_int emit];
      cbn [w_input w_rand w_malloc w_out w_file w_freed];
      rewrite Hin; destruct (Z.leb_spec c 0); [lia|];
      rewrite Hrun;
      cbv [bind emit print_intersection_state save_statistics append_record
           destroy_intersection ret negb];
      rewrite Hfo; reflexivity
    | cbn [w_rand w_file w_freed]; rewrite ?Hd, ?Hf, ?Hr;
      repeat split; try done; by rewrite app_nil_r ].
Qed.

End ValidRun.

(** C10: the four lane counts are stored with every negative one replaced
    by 0, and nothing but the prompts is written; with a positive number of
    cycles and the memory allocated, the run then is the run in which 0 had
    been entered: all the cycles are simulated and [main] returns 0.  Only
    a lane count that cannot be read ends the process, with
    [EXIT_FAILURE]. *)
Theorem negative_lane_input_clamped (rand_seq : nat -> Z)
    (malloc_ok : nat -> bool) (fopen_ok : string -> bool)
    (v0 v1 v2 v3 c : Z) (tail : list (option Z)) :
  let entered :=
    Some v0 :: Some v1 :: Some v2 :: Some v3 :: Some c :: tail in
  let clamped :=
    Some (Z.max 0 v0) :: Some (Z.max 0 v1) :: Some (Z.max 0 v2)
      :: Some (Z.max 0 v3) :: Some c :: tail in
  (exists w',
     input_vehicle_counts (new_intersection "Main_1") (initial_world entered)
       = (Continue (seeded [Z.max 0 v0; Z.max 0 v1; Z.max 0 v2; Z.max 0 v3]),
          w') /\
     w_input w' = Some c :: tail /\ w_out w' = lane_prompts) /\
  (malloc_ok 0%nat = true -> malloc_ok 1%nat = true -> 0 < c <= INT_MAX ->
   exists it' w',
     run_main rand_seq malloc_ok fopen_ok (initial_world entered) = (0, w') /\
     run_main rand_seq malloc_ok fopen_ok (initial_world clamped) = (0, w') /\
     w_freed w' = [it'] /\ cycles it' = c /\
     w_rand w' = (Z.to_nat c * LANES)%nat) /\
  (forall it w,
     (forall x0 x1 x2 x3 rest,
        w_input w <> Some x0 :: Some x1 :: Some x2 :: Some x3 :: rest) ->
     exists w', input_vehicle_counts it w = (Exited EXIT_FAILURE, w')).
Proof.
  intros entered clamped. split; [|split].
  - rewrite (input_vehicle_counts_run _ _ v0 v1 v2 v3 (Some c :: tail))
      by reflexivity.
    rewrite seed_new_intersection. by eexists.
  - intros Hm0 Hm1 Hc.
    destruct (main_after_input_valid rand_seq fopen_ok
                (seeded [Z.max 0 v0; Z.max 0 v1; Z.max 0 v2; Z.max 0 v3])
                {| w_input := Some c :: tail; w_rand := 0; w_malloc := 2;
                   w_out := EvBanner :: lane_prompts;
                   w_file := []; w_freed := [] |}
                c tail Hc eq_refl eq_refl)
      as (it' & w' & Hrun & Hfreed & Hcyc & Hrand & _).
    exists it', w'.
    assert (Hmain : forall x0 x1 x2 x3,
               Z.max 0 x0 = Z.max 0 v0 -> Z.max 0 x1 = Z.max 0 v1 ->
               Z.max 0 x2 = Z.max 0 v2 -> Z.max 0 x3 = Z.max 0 v3 ->
               run_main rand_seq malloc_ok fopen_ok
                 (initial_world
                    (Some x0 :: Some x1 :: Some x2 :: Some x3 :: Some c :: tail))
               = (0, w')).
    { intros x0 x1 x2 x3 H0 H1 H2 H3. unfold run_main. rewrite main_unfold.
      cbv [create_intersection bind malloc emit exit ret initial_world negb
           w_input w_rand w_malloc w_out w_file w_freed].
      rewrite Hm0, Hm1.
      rewrite (input_vehicle_counts_run _ _ x0 x1 x2 x3 (Some c :: tail))
        by reflexivity.
      rewrite seed_new_intersection, H0, H1, H2, H3.
      cbn [w_input w_rand w_malloc w_out w_file w_freed app].
      by rewrite Hrun. }
    split; [by apply Hmain|]. split; [apply Hmain; lia|].
    split; [exact Hfreed|]. split; [exact Hcyc|exact Hrand].
  - intros it w Hbad.
    destruct (input_vehicle_counts_exit it w Hbad) as (w' & Hexit & _).
    by exists w'.
Qed.

Lemma negative_lane_input_clamped_witness :
  (exists w',
     input_vehicle_counts (new_intersection "Main_1")
       (initial_world [Some (-2); Some 0; Some 5; Some (-1); Some 2])
     = (Continue (seeded [0; 0; 5; 0]), w') /\
     w_input w' = [Some 2] /\ w_out w' = lane_prompts) /\
  (exists it' w',
     run_main sample_rand (fun _ => true) (fun _ => true)
       (initial_world [Some (-2); Some 0; Some 5; Some (-1); Some 2])
     = (0, w') /\
     run_main sample_rand (fun _ => true) (fun _ => true)
       (initial_world [Some 0; Some 0; Some 5; Some 0; Some 2])
     = (0, w') /\
     w_freed w' = [it'] /\ cycles it' = 2 /\ w_rand w' = 8%nat) /\
  (exists w',
     input_vehicle_counts (new_intersection "Main_1")
       (initial_world [Some 3; None; Some 5; Some 1; Some 2])
     = (Exited EXIT_FAILURE, w')).
Proof.
  pose proof (negative_lane_input_clamped sample_rand (fun _ => true)
                (fun _ => true) (-2) 0 5 (-1) 2 []) as (Hread & Hrun & Hexit).
  split; [exact Hread|]. split.
  - apply Hrun; [reflexivity|reflexivity|unfold INT_MAX; lia].
  - apply Hexit. intros x0 x1 x2 x3 rest. simpl. discriminate.
Defined.

(** * Further properties of the code *)

(** ** A green phase, lane by lane *)

Lemma accrue_wait_iter (n : nat) (l : Lane) :
  0 <= vehicles l ->
  is_long (total_wait_secs l) ->
  for_loop n 0 (fun _ => accrue_wait) l
  = {| vehicles := vehicles l;
       total_wait_secs :=
         long_add (total_wait_secs l) (Z.of_nat n * vehicles l);
       vehicles_served := vehicles_served l |}.
Proof.
  revert l. induction n as [|n IH]; intros [v wt sv] Hv Hw; simpl in Hv, Hw.
  - simpl. unfold long_add. by rewrite Z.add_0_r, wrap_long_id.
  - rewrite for_loop_const_S. unfold accrue_wait at 2; simpl.
    destruct (Z.ltb_spec 0 v) as [Hpos|Hzero].
    + rewrite IH; simpl; [|lia|apply wrap_long_range].
      rewrite long_add_assoc. do 2 f_equal. lia.
    + rewrite IH by done. simpl. do 2 f_equal. lia.
Qed.

(** What the green phase of lane [i] makes of lane [j]: lane [i] itself
    lets [min v g] vehicles go, and any other of the 4 lanes waits [g]
    seconds with its whole queue. *)
Lemma green_phase_lane (i j : nat) (it : Intersection) (l : Lane) :
  lanes it !! j = Some l -> (j < LANES)%nat -> lane_ok l ->
  let g := green_at it i in
  lanes (green_phase i it) !! j
  = Some (if decide (j = i)
          then {| vehicles := Z.max (vehicles l - g) 0;
                  total_wait_secs := total_wait_secs l;
                  vehicles_served :=
                    long_add (vehicles_served l) (Z.min (vehicles l) g) |}
          else {| vehicles := vehicles l;
                  total_wait_secs :=
                    long_add (total_wait_secs l) (g * vehicles l);
                  vehicles_served := vehicles_served l |}).
Proof.
  intros Hl Hj (Hv & Hw & Hs) g.
  pose proof (green_of_range (vehicles (lane_at it i))) as Hg.
  fold (green_at it i) in Hg. fold g in Hg. unfold BASE_GREEN in Hg.
  rewrite green_phase_lookup, Hl. simpl. f_equal.
  fold (green_at it i). fold g.
  destruct (decide (j = i)) as [->|Hne].
  - rewrite (for_loop_ext _ (fun _ => pass_vehicle)).
    + rewrite pass_vehicle_iter by done. by rewrite Z2Nat.id by lia.
    + intros _ x. unfold tick_lane. by rewrite decide_True.
  - rewrite (for_loop_ext _ (fun _ => accrue_wait)).
    + rewrite accrue_wait_iter by (done || lia). by rewrite Z2Nat.id by lia.
    + intros _ x. unfold tick_lane.
      rewrite decide_False by done. by rewrite decide_True.
Qed.

(** The queues of the lanes that are not green do not move, whatever they
    hold. *)
Lemma tick_lane_other_vehicles (i j : nat) (n : nat) (l : Lane) :
  j <> i ->
  vehicles (for_loop n 0 (fun _ => tick_lane i j) l) = vehicles l.
Proof.
  intros Hne. revert l. induction n as [|n IH]; intros l; [done|].
  rewrite for_loop_const_S, IH. unfold tick_lane.
  rewrite decide_False by done. case_decide; [|done].
  unfold accrue_wait. by destruct (0 <? vehicles l).
Qed.

Lemma green_phase_other_vehicles (i k : nat) (it : Intersection) :
  k <> i ->
  vehicles (lane_at (green_phase i it) k) = vehicles (lane_at it k).
Proof.
  intros Hne. unfold lane_at. rewrite green_phase_lookup.
  destruct (lanes it !! k) as [l|]; simpl; [|done].
  by apply tick_lane_other_vehicles.
Qed.

Lemma green_phase_other_green (i k : nat) (it : Intersection) :
  k <> i -> green_at (green_phase i it) k = green_at it k.
Proof. intros Hne. unfold green_at. by rewrite green_phase_other_vehicles. Qed.

(** The counters of a lane given by numerals are within their ranges. *)
Ltac concrete_lane_ok :=
  unfold lane_ok, is_long, INT_MAX, LONG_MIN, LONG_MAX;
  cbn [vehicles total_wait_secs vehicles_served]; lia.

(** The four queues of an intersection given by numerals are in range. *)
Ltac concrete_queues_in_range :=
  let i := fresh "i" in
  let Hi := fresh "Hi" in
  intros i Hi; unfold LANES in Hi;
  do 4 (destruct i as [|i]; [unfold GREEN_ARG_MAX; simpl; lia|]); lia.


(** ** The four phases together *)

Lemma green_total_ext (P : nat -> bool) (G G' : nat -> Z) (start n : nat) :
  (forall i, (start <= i < start + n)%nat -> G i = G' i) ->
  green_total P G start n = green_total P G' start n.
Proof.
  revert start. induction n as [|n IH]; intros start HG; simpl; [done|].
  rewrite HG by lia. f_equal. apply IH. intros i Hi. apply HG. lia.
Qed.

Lemma green_total_none (P : nat -> bool) (G : nat -> Z) (start n : nat) :
  (forall i, (start <= i < start + n)%nat -> P i = false) ->
  green_total P G start n = 0.
Proof.
  revert start. induction n as [|n IH]; intros start HP; simpl; [done|].
  rewrite HP by lia. rewrite IH; [done|]. intros i Hi. apply HP. lia.
Qed.

Lemma green_total_range (P : nat -> bool) (it : Intersection) (start n : nat) :
  0 <= green_total P (green_at it) start n <= MAX_GREEN * Z.of_nat n.
Proof.
  revert start. induction n as [|n IH]; intros start; simpl green_total.
  - unfold MAX_GREEN. lia.
  - pose proof (IH (S start)) as Hrest.
    pose proof (green_of_range (vehicles (lane_at it start))) as Hg.
    fold (green_at it start) in Hg. unfold BASE_GREEN, MAX_GREEN in *.
    destruct (P start); lia.
Qed.

(** The phases of the lanes [start], ..., [start + n - 1], seen from lane
    [j]. *)
Lemma green_phases_lane (n start j : nat) (it : Intersection) (l : Lane) :
  lanes it !! j = Some l -> (j < LANES)%nat -> lane_ok l ->
  let v := vehicles l in
  let g := green_at it j in
  let served_now := bool_decide (start <= j < start + n)%nat in
  let v' := if served_now then Z.max (v - g) 0 else v in
  lanes (for_loop n start green_phase it) !! j
  = Some {| vehicles := v';
            total_wait_secs :=
              long_add (total_wait_secs l)
                (v * green_total (fun i => Nat.ltb i j) (green_at it) start n
                 + v' * green_total (fun i => Nat.ltb j i) (green_at it) start n);
            vehicles_served :=
              if served_now
              then long_add (vehicles_served l) (Z.min v g)
              else vehicles_served l |}.
Proof.
  revert start it l. induction n as [|n IH]; intros start it l Hl Hj Hok.
  - destruct Hok as (Hv & Hw & Hs). cbv zeta. simpl for_loop. simpl green_total.
    rewrite bool_decide_eq_false_2 by lia. rewrite Hl. f_equal.
    destruct l as [v wt sv]; simpl in *. f_equal.
    unfold long_add. rewrite !Z.mul_0_r, Z.add_0_r. by rewrite wrap_long_id.
  - cbv zeta. rewrite for_loop_S.
    pose proof (green_phase_lane start j it l Hl Hj Hok) as Hphase.
    cbv zeta in Hphase.
    pose proof (green_of_range (vehicles (lane_at it start))) as Hg.
    fold (green_at it start) in Hg. unfold BASE_GREEN, MAX_GREEN in Hg.
    assert (Hlane : lane_at it j = l) by (unfold lane_at; by rewrite Hl).
    destruct Hok as (Hv & Hw & Hs).
    (* the greens of the lanes still to come are those of [it] *)
    assert (Hlater : forall P,
               green_total P (green_at (green_phase start it)) (S start) n
               = green_total P (green_at it) (S start) n).
    { intros P. apply green_total_ext. intros i Hi.
      apply green_phase_other_green. lia. }
    destruct (decide (j = start)) as [->|Hne].
    + rewrite (IH (S start) _ _ Hphase Hj); cbv zeta; cbn [vehicles
        total_wait_secs vehicles_served].
      2:{ unfold lane_ok. cbn [vehicles total_wait_secs vehicles_served].
          split; [unfold INT_MAX in *; lia|].
          split; [done|apply wrap_long_range]. }
      rewrite !Hlater.
      rewrite bool_decide_eq_false_2 by lia.
      rewrite bool_decide_eq_true_2 by lia.
      simpl green_total. rewrite Nat.ltb_irrefl.
      rewrite (green_total_none (fun i => Nat.ltb i start))
        by (intros i Hi; apply Nat.ltb_ge; lia).
      do 3 f_equal. ring.
    + rewrite (IH (S start) _ _ Hphase Hj); cbv zeta; cbn [vehicles
        total_wait_secs vehicles_served].
      2:{ unfold lane_ok. cbn [vehicles total_wait_secs vehicles_served].
          split; [done|]. split; [apply wrap_long_range|done]. }
      rewrite !Hlater, green_phase_other_green by done.
      rewrite long_add_assoc.
      rewrite (bool_decide_ext (S start <= j < S start + n)%nat
                 (start <= j < start + S n)%nat) by lia.
      simpl green_total.
      destruct (Nat.ltb_spec start j), (Nat.ltb_spec j start); try lia.
      * do 3 f_equal. ring.
      * rewrite !bool_decide_eq_false_2 by lia. do 3 f_equal. ring.
Qed.

(** ** One cycle, lane by lane *)

Lemma cycle_lane (j : nat) (it : Intersection) (l : Lane) :
  lanes it !! j = Some l -> (j < LANES)%nat -> lane_ok l ->
  lanes (run_one_cycle it) !! j
  = Some {| vehicles := Z.max (vehicles l - green_at it j) 0;
            total_wait_secs :=
              long_add (total_wait_secs l)
                (vehicles l * greens_before it j
                 + Z.max (vehicles l - green_at it j) 0 * greens_after it j);
            vehicles_served :=
              long_add (vehicles_served l)
                (Z.min (vehicles l) (green_at it j)) |}.
Proof.
  intros Hl Hj Hok. rewrite lanes_run_one_cycle.
  rewrite (green_phases_lane LANES 0 j it l Hl Hj Hok). cbv zeta.
  by rewrite bool_decide_eq_true_2 by (unfold LANES in *; lia).
Qed.

Lemma green_at_lane (j : nat) (it : Intersection) (l : Lane) :
  lanes it !! j = Some l -> green_at it j = green_of (vehicles l).
Proof. intros Hl. unfold green_at, lane_at. by rewrite Hl. Qed.

(** Below the overflow of the formula, the green always suffices for 40
    vehicles or for the whole queue. *)
Lemma green_of_takes (v : Z) :
  0 <= v <= GREEN_ARG_MAX ->
  Z.max (v - green_of v) 0 = Z.max (v - MAX_GREEN) 0 /\
  Z.min v (green_of v) = Z.min v MAX_GREEN.
Proof.
  intros Hv. rewrite green_of_exact by done.
  rewrite calculate_green_time_exact
    by (unfold GREEN_ARG_MIN, GREEN_ARG_MAX in *; lia).
  unfold MAX_GREEN, BASE_GREEN. lia.
Qed.

Lemma greens_split_range (it : Intersection) (j : nat) :
  (j < LANES)%nat ->
  BASE_GREEN * Z.of_nat j <= greens_before it j <= MAX_GREEN * Z.of_nat j /\
  BASE_GREEN * (3 - Z.of_nat j) <= greens_after it j
    <= MAX_GREEN * (3 - Z.of_nat j).
Proof.
  intros Hj. unfold greens_before, greens_after, LANES in *. simpl green_total.
  pose proof (green_of_range (vehicles (lane_at it 0))) as H0.
  pose proof (green_of_range (vehicles (lane_at it 1))) as H1.
  pose proof (green_of_range (vehicles (lane_at it 2))) as H2.
  pose proof (green_of_range (vehicles (lane_at it 3))) as H3.
  fold (green_at it 0) in H0. fold (green_at it 1) in H1.
  fold (green_at it 2) in H2. fold (green_at it 3) in H3.
  unfold BASE_GREEN, MAX_GREEN in *.
  destruct j as [|[|[|[|j]]]]; simpl; lia.
Qed.

(** X5: one cycle, for any of the 4 lanes [j], when every queue is
    between 0 and 1073741821, so that no green-time formula overflows, and
    the lane's counters are within their types.  The green time of every
    lane is [min 40 (5 + 2 v)] for its queue [v] at the start of the cycle,
    whatever the lanes served before it did.  The cycle leaves lane [j]
    [max (v - g) 0] vehicles, not more than before, and counts [min v g]
    more as served.  Its waiting time grows by [v] for every second of
    green of the lanes served before it and by what is left of its queue
    for every second of green of the lanes served after it; its own green
    adds nothing.  The sums are those of [long], exact when
    [vehicles_served + 40] and [total_wait_secs + 120 v] fit. *)
Theorem run_one_cycle_lane (j : nat) (it : Intersection) (l : Lane) :
  lanes it !! j = Some l -> (j < LANES)%nat -> lane_ok l ->
  queues_in_range it ->
  let v := vehicles l in
  let g := Z.min MAX_GREEN (BASE_GREEN + 2 * v) in
  let v' := Z.max (v - g) 0 in
  let waited := v * greens_before it j + v' * greens_after it j in
  exists l',
    lanes (run_one_cycle it) !! j = Some l' /\
    vehicles l' = v' /\
    vehicles_served l' = long_add (vehicles_served l) (Z.min v g) /\
    total_wait_secs l' = long_add (total_wait_secs l) waited /\
    (forall i : nat,
       (i < LANES)%nat ->
       green_at it i
       = Z.min MAX_GREEN (BASE_GREEN + 2 * vehicles (lane_at it i))) /\
    0 <= v' <= v /\
    (vehicles_served l + MAX_GREEN <= LONG_MAX ->
     vehicles_served l' = vehicles_served l + Z.min v g) /\
    (total_wait_secs l + 3 * MAX_GREEN * v <= LONG_MAX ->
     total_wait_secs l' = total_wait_secs l + waited).
Proof.
  intros Hl Hj Hok Hrange v g v' waited.
  assert (Hgreens : forall i : nat,
            (i < LANES)%nat ->
            green_at it i
            = Z.min MAX_GREEN (BASE_GREEN + 2 * vehicles (lane_at it i))).
  { intros i Hi. unfold green_at. specialize (Hrange i Hi).
    rewrite green_of_exact by done.
    apply calculate_green_time_exact. unfold GREEN_ARG_MIN. lia. }
  pose proof (cycle_lane j it l Hl Hj Hok) as Hcycle.
  rewrite (Hgreens j Hj) in Hcycle.
  assert (Hlane : lane_at it j = l) by (unfold lane_at; by rewrite Hl).
  rewrite Hlane in Hcycle. fold v g v' waited in Hcycle.
  destruct Hok as (Hv & Hw & Hs). fold v in Hv.
  destruct (greens_split_range it j Hj) as [Hb Ha].
  assert (Hg : 5 <= g <= 40) by (unfold g, BASE_GREEN, MAX_GREEN; lia).
  unfold BASE_GREEN, MAX_GREEN, is_long in Hb, Ha, Hw, Hs |- *.
  eexists. split; [exact Hcycle|]. cbn [vehicles total_wait_secs vehicles_served].
  split; [done|]. split; [done|]. split; [done|]. split; [exact Hgreens|].
  assert (Hv' : 0 <= v' <= v) by (unfold v'; lia).
  split; [exact Hv'|]. split.
  - intros Hroom. unfold long_add. apply wrap_long_id. unfold is_long. lia.
  - intros Hroom. unfold long_add. apply wrap_long_id. unfold is_long.
    assert (0 <= waited <= 120 * v) by (unfold waited, LANES in *; nia).
    lia.
Qed.

Lemma run_one_cycle_lane_witness :
  exists l',
    lanes (run_one_cycle scenario) !! 2%nat = Some l' /\
    vehicles l' = 0 /\ vehicles_served l' = 5 /\ total_wait_secs l' = 70.
Proof.
  destruct (run_one_cycle_lane 2 scenario
              {| vehicles := 5; total_wait_secs := 0; vehicles_served := 0 |})
    as (l' & Hl' & Hv & _ & _ & _ & _ & Hs & Hw).
  - reflexivity.
  - unfold LANES. lia.
  - concrete_lane_ok.
  - concrete_queues_in_range.
  - exists l'. split; [exact Hl'|]. split; [exact Hv|]. split.
    + rewrite Hs; [reflexivity|vm_compute; discriminate].
    + rewrite Hw; [reflexivity|vm_compute; discriminate].
Defined.

(** X4: during the green of a lane [i] whose queue [w] is between 0 and
    1073741821, so that its green time is computed without overflow, any
    other of the 4 lanes keeps its queue and its count of served vehicles,
    and its waiting time grows by its queue for each of the
    [g = min 40 (5 + 2 w)] seconds of that green: by [g * vehicles] in
    [long] arithmetic, exactly so when [total_wait_secs + 40 * vehicles]
    fits.  An empty lane is left as it is. *)
Theorem green_phase_other_lane (i j : nat) (it : Intersection) (l : Lane) :
  lanes it !! j = Some l -> (j < LANES)%nat -> j <> i -> lane_ok l ->
  0 <= vehicles (lane_at it i) <= GREEN_ARG_MAX ->
  let g := Z.min MAX_GREEN (BASE_GREEN + 2 * vehicles (lane_at it i)) in
  exists l',
    lanes (green_phase i it) !! j = Some l' /\
    vehicles l' = vehicles l /\
    vehicles_served l' = vehicles_served l /\
    total_wait_secs l' = long_add (total_wait_secs l) (g * vehicles l) /\
    BASE_GREEN <= g <= MAX_GREEN /\
    (vehicles l = 0 -> l' = l) /\
    (total_wait_secs l + MAX_GREEN * vehicles l <= LONG_MAX ->
     total_wait_secs l' = total_wait_secs l + g * vehicles l).
Proof.
  intros Hl Hj Hne Hok Hi g.
  pose proof (green_phase_lane i j it l Hl Hj Hok) as Hphase.
  cbv zeta in Hphase. rewrite decide_False in Hphase by done.
  assert (Hgreen : green_at it i = g).
  { unfold green_at. rewrite green_of_exact by done.
    apply calculate_green_time_exact. unfold GREEN_ARG_MIN. lia. }
  rewrite Hgreen in Hphase.
  assert (Hg : BASE_GREEN <= g <= MAX_GREEN)
    by (unfold g, BASE_GREEN, MAX_GREEN; lia).
  destruct Hok as (Hv & Hw & Hs).
  eexists. split; [exact Hphase|].
  cbn [vehicles total_wait_secs vehicles_served].
  split; [done|]. split; [done|]. split; [done|]. split; [done|]. split.
  - intros Hzero. destruct l as [v wt sv]; simpl in *. subst v.
    unfold long_add. by rewrite Z.mul_0_r, Z.add_0_r, wrap_long_id.
  - intros Hroom. unfold long_add. apply wrap_long_id.
    unfold is_long, BASE_GREEN, MAX_GREEN in *. nia.
Qed.

Lemma green_phase_other_lane_witness :
  exists l',
    lanes (green_phase 0 scenario) !! 2%nat = Some l' /\
    vehicles l' = 5 /\ total_wait_secs l' = 45.
Proof.
  destruct (green_phase_other_lane 0 2 scenario
              {| vehicles := 5; total_wait_secs := 0; vehicles_served := 0 |})
    as (l' & Hl' & Hv & _ & _ & _ & _ & Hw).
  - reflexivity.
  - unfold LANES. lia.
  - lia.
  - concrete_lane_ok.
  - unfold GREEN_ARG_MAX. simpl. lia.
  - exists l'. split; [exact Hl'|]. split; [exact Hv|].
    rewrite Hw; [reflexivity|vm_compute; discriminate].
Defined.

(** X6: a cycle serves at most 40 vehicles of a lane, and all of a queue
    of up to 40.  For any of the 4 lanes with [0 <= vehicles <=
    1073741821] the cycle leaves [max (vehicles - 40) 0] vehicles waiting
    and counts [min vehicles 40] more as served; no vehicle is lost or
    made up: [vehicles + vehicles_served] is the same before and after,
    as long as [vehicles_served + 40] fits a [long]. *)
Theorem run_one_cycle_throughput (j : nat) (it : Intersection) (l : Lane) :
  lanes it !! j = Some l -> (j < LANES)%nat -> lane_ok l ->
  vehicles l <= GREEN_ARG_MAX ->
  exists l',
    lanes (run_one_cycle it) !! j = Some l' /\
    vehicles l' = Z.max (vehicles l - 40) 0 /\
    vehicles_served l'
      = long_add (vehicles_served l) (Z.min (vehicles l) 40) /\
    (vehicles_served l + 40 <= LONG_MAX ->
     vehicles l' + vehicles_served l' = vehicles l + vehicles_served l).
Proof.
  intros Hl Hj Hok Hmax.
  pose proof (cycle_lane j it l Hl Hj Hok) as Hcycle.
  rewrite (green_at_lane j it l Hl) in Hcycle.
  destruct Hok as (Hv & Hw & Hs).
  destruct (green_of_takes (vehicles l)) as [Hleft Htaken]; [lia|].
  rewrite Hleft, Htaken in Hcycle. unfold MAX_GREEN in Hcycle.
  eexists. split; [exact Hcycle|].
  cbn [vehicles total_wait_secs vehicles_served].
  split; [done|]. split; [done|].
  intros Hroom. unfold long_add. rewrite wrap_long_id; [lia|].
  unfold is_long in *. lia.
Qed.

Lemma run_one_cycle_throughput_witness :
  exists l',
    lanes (run_one_cycle long_queue) !! 3%nat = Some l' /\
    vehicles l' = 99999960 /\ vehicles_served l' = 40.
Proof.
  destruct (run_one_cycle_throughput 3 long_queue
              {| vehicles := 100000000; total_wait_secs := 0;
                 vehicles_served := 0 |})
    as (l' & Hl' & Hv & Hs & _).
  - reflexivity.
  - unfold LANES. lia.
  - concrete_lane_ok.
  - vm_compute. discriminate.
  - exists l'. split; [exact Hl'|]. split; [exact Hv|]. exact Hs.
Defined.

Lemma tick_lane_idle (i j : nat) (n : nat) (l : Lane) :
  vehicles l <= 0 -> for_loop n 0 (fun _ => tick_lane i j) l = l.
Proof.
  intros Hv. induction n as [|n IH]; [done|].
  rewrite for_loop_const_S.
  replace (tick_lane i j l) with l; [done|].
  unfold tick_lane, pass_vehicle, accrue_wait.
  destruct (Z.ltb_spec 0 (vehicles l)); [lia|].
  by repeat case_decide.
Qed.

Lemma green_phase_idle_lane (i j : nat) (it : Intersection) (l : Lane) :
  lanes it !! j = Some l -> vehicles l <= 0 ->
  lanes (green_phase i it) !! j = Some l.
Proof.
  intros Hl Hv. rewrite green_phase_lookup, Hl. simpl.
  by rewrite tick_lane_idle.
Qed.

Lemma green_phases_idle_lane (n start j : nat) (it : Intersection) :
  (forall l, lanes it !! j = Some l -> vehicles l <= 0) ->
  lanes (for_loop n start green_phase it) !! j = lanes it !! j.
Proof.
  revert start it. induction n as [|n IH]; intros start it Hidle; [done|].
  rewrite for_loop_S.
  assert (Hphase : lanes (green_phase start it) !! j = lanes it !! j).
  { destruct (lanes it !! j) as [l|] eqn:Hl.
    - apply green_phase_idle_lane; [done|]. by apply Hidle.
    - by rewrite green_phase_lookup, Hl. }
  rewrite IH; [done|]. intros l. rewrite Hphase. apply Hidle.
Qed.

Lemma green_phases_frame (n start : nat) (it : Intersection) :
  name (for_loop n start green_phase it) = name it /\
  cycles (for_loop n start green_phase it) = cycles it /\
  length (lanes (for_loop n start green_phase it)) = length (lanes it).
Proof.
  revert start it. induction n as [|n IH]; intros start it; [done|].
  rewrite for_loop_S.
  destruct (IH (S start) (green_phase start it)) as (-> & -> & ->).
  apply green_phase_frame.
Qed.

Lemma set_cycles_frame (c : Z) (it : Intersection) :
  name (set_cycles c it) = name it /\ lanes (set_cycles c it) = lanes it.
Proof. done. Qed.

(** X8: a lane with no vehicle (or a negative count) comes out of a
    cycle as it went in: nothing served, no waiting time added, whatever
    the other lanes hold.  When all the lanes are empty a cycle changes
    no lane at all; it only counts itself. *)
Theorem run_one_cycle_empty_lane (it : Intersection) :
  (forall j l, lanes it !! j = Some l -> vehicles l <= 0 ->
     lanes (run_one_cycle it) !! j = Some l) /\
  (Forall (fun l => vehicles l <= 0) (lanes it) ->
   lanes (run_one_cycle it) = lanes it).
Proof.
  split.
  - intros j l Hl Hv. rewrite lanes_run_one_cycle, green_phases_idle_lane; [done|].
    intros l' Hl'. congruence.
  - intros Hall. apply list_eq. intros j.
    rewrite lanes_run_one_cycle. apply green_phases_idle_lane.
    intros l Hl. rewrite Forall_lookup in Hall. by apply Hall with j.
Qed.

Lemma run_one_cycle_empty_lane_witness :
  lanes (run_one_cycle (seeded [0; 0; 0; 0])) = lanes (seeded [0; 0; 0; 0]).
Proof.
  apply (run_one_cycle_empty_lane (seeded [0; 0; 0; 0])).
  repeat (apply Forall_cons; split; [simpl; lia|]). apply Forall_nil_2.
Defined.

Lemma run_one_cycle_keeps (it : Intersection) :
  name (run_one_cycle it) = name it /\
  length (lanes (run_one_cycle it)) = length (lanes it).
Proof.
  rewrite run_one_cycle_unfold.
  destruct (set_cycles_frame
              (int_add (cycles (for_loop LANES 0 green_phase it)) 1)
              (for_loop LANES 0 green_phase it)) as [-> ->].
  destruct (green_phases_frame LANES 0 it) as (Hn & _ & Hlen). by split.
Qed.

(** X9: a cycle never renames the intersection and never adds or drops a
    lane: the lane array keeps its length, and index [j] holds a lane
    after the cycle exactly when it did before. *)
Theorem run_one_cycle_frame (it : Intersection) :
  name (run_one_cycle it) = name it /\
  length (lanes (run_one_cycle it)) = length (lanes it) /\
  (forall j, is_Some (lanes (run_one_cycle it) !! j) <-> is_Some (lanes it !! j)).
Proof.
  destruct (run_one_cycle_keeps it) as [Hn Hlen].
  split; [done|]. split; [done|].
  intros j. rewrite !lookup_lt_is_Some. by rewrite Hlen.
Qed.

(** X10: with no arrival in between, [n] cycles take a queue of [v]
    vehicles ([0 <= v <= 1073741821]) down to [max (v - 40 n) 0]: the
    lane is empty after [n] cycles exactly when [v <= 40 n]. *)
Theorem run_cycles_drain (n : nat) (j : nat) (it : Intersection) (l : Lane) :
  lanes it !! j = Some l -> (j < LANES)%nat -> lane_ok l ->
  vehicles l <= GREEN_ARG_MAX ->
  exists l',
    lanes (run_cycles n it) !! j = Some l' /\
    vehicles l' = Z.max (vehicles l - 40 * Z.of_nat n) 0 /\
    (vehicles l' = 0 <-> vehicles l <= 40 * Z.of_nat n).
Proof.
  revert it l. induction n as [|n IH]; intros it l Hl Hj Hok Hmax.
  - exists l. split; [done|]. destruct Hok as (Hv & _). simpl. lia.
  - pose proof (cycle_lane j it l Hl Hj Hok) as Hcycle.
    rewrite (green_at_lane j it l Hl) in Hcycle.
    destruct (green_of_takes (vehicles l)) as [Hleft _];
      [destruct Hok; lia|].
    rewrite Hleft in Hcycle. unfold MAX_GREEN in Hcycle.
    destruct (IH _ _ Hcycle Hj) as (l' & Hl' & Hv' & _).
    { destruct Hok as (Hv & Hw & Hs). unfold lane_ok.
      cbn [vehicles total_wait_secs vehicles_served].
      split; [lia|]. split; apply wrap_long_range. }
    { cbn [vehicles]. destruct Hok. lia. }
    exists l'. split; [exact Hl'|].
    cbn [vehicles] in Hv'. destruct Hok as (Hv & _). lia.
Qed.

Lemma run_cycles_drain_witness :
  exists l',
    lanes (run_cycles 3 long_queue) !! 3%nat = Some l' /\
    vehicles l' = 99999880.
Proof.
  destruct (run_cycles_drain 3 3 long_queue
              {| vehicles := 100000000; total_wait_secs := 0;
                 vehicles_served := 0 |})
    as (l' & Hl' & Hv & _).
  - reflexivity.
  - unfold LANES. lia.
  - concrete_lane_ok.
  - vm_compute. discriminate.
  - exists l'. split; [exact Hl'|exact Hv].
Defined.

(** X7: when every queue is between 0 and 1073741821, so that no
    green-time formula overflows, what a cycle adds to the waiting time of
    one of the 4 lanes lies between 15 seconds for each vehicle still
    queued after the cycle (the three other greens last at least
    [BASE_GREEN] each) and 120 seconds for each vehicle queued before it
    (at most [MAX_GREEN] each), provided [total_wait_secs + 120 * vehicles]
    fits a [long]; the waiting time of an empty lane does not change. *)
Theorem run_one_cycle_wait_bounds (j : nat) (it : Intersection) (l : Lane) :
  lanes it !! j = Some l -> (j < LANES)%nat -> lane_ok l ->
  queues_in_range it ->
  total_wait_secs l + 3 * MAX_GREEN * vehicles l <= LONG_MAX ->
  exists l',
    lanes (run_one_cycle it) !! j = Some l' /\
    vehicles l' = Z.max (vehicles l - MAX_GREEN) 0 /\
    total_wait_secs l + 3 * BASE_GREEN * vehicles l'
      <= total_wait_secs l'
      <= total_wait_secs l + 3 * MAX_GREEN * vehicles l /\
    (vehicles l = 0 -> total_wait_secs l' = total_wait_secs l).
Proof.
  intros Hl Hj Hok Hrange Hroom.
  pose proof (cycle_lane j it l Hl Hj Hok) as Hcycle.
  assert (Hlane : lane_at it j = l) by (unfold lane_at; by rewrite Hl).
  assert (Hleft : Z.max (vehicles l - green_at it j) 0
                  = Z.max (vehicles l - MAX_GREEN) 0).
  { rewrite (green_at_lane j it l Hl).
    apply green_of_takes. rewrite <- Hlane. by apply Hrange. }
  rewrite Hleft in Hcycle.
  destruct Hok as (Hv & Hw & Hs).
  destruct (greens_split_range it j Hj) as [Hb Ha].
  unfold BASE_GREEN, MAX_GREEN, is_long, LANES in *.
  eexists. split; [exact Hcycle|].
  cbn [vehicles total_wait_secs vehicles_served].
  set (v := vehicles l) in *.
  set (v' := Z.max (v - 40) 0) in *.
  assert (Hv' : 0 <= v' <= v) by (unfold v'; lia).
  assert (Hwaited : 15 * v' <= v * greens_before it j + v' * greens_after it j
                    <= 120 * v) by nia.
  split; [done|].
  unfold long_add. rewrite wrap_long_id by (unfold is_long; lia).
  split; [lia|]. intros Hzero. assert (v' = 0) by lia. nia.
Qed.

Lemma run_one_cycle_wait_bounds_witness :
  exists l',
    lanes (run_one_cycle long_queue) !! 3%nat = Some l' /\
    15 * vehicles l' <= total_wait_secs l' <= 12000000000.
Proof.
  destruct (run_one_cycle_wait_bounds 3 long_queue
              {| vehicles := 100000000; total_wait_secs := 0;
                 vehicles_served := 0 |})
    as (l' & Hl' & _ & Hw & _).
  - reflexivity.
  - unfold LANES. lia.
  - concrete_lane_ok.
  - concrete_queues_in_range.
  - vm_compute. discriminate.
  - exists l'. split; [exact Hl'|].
    unfold BASE_GREEN, MAX_GREEN in Hw. cbn [vehicles total_wait_secs] in Hw.
    lia.
Defined.

(** ** Creation *)

Lemma substring_head (n : nat) (s : string) :
  String.length (substring 0 n s) = Nat.min n (String.length s) /\
  exists rest : string, s = (substring 0 n s ++ rest)%string.
Proof.
  revert s. induction n as [|n IH]; intros [|c s]; simpl.
  - split; [done|]. by exists ""%string.
  - split; [done|]. by exists (String c s).
  - split; [done|]. by exists ""%string.
  - destruct (IH s) as [-> [rest Hrest]]. split; [done|].
    exists rest. by rewrite <- Hrest.
Qed.

Lemma substring_whole (n : nat) (s : string) :
  (String.length s <= n)%nat -> substring 0 n s = s.
Proof.
  revert s. induction n as [|n IH]; intros [|c s]; simpl; intros Hlen;
    try done; try lia.
  rewrite IH; [done|lia].
Qed.

(** X1: [create_intersection] asks for memory twice.  When both requests
    succeed it returns an intersection with 4 lanes, all counters 0 and no
    cycle run, and writes nothing.  When the first fails, or the first
    succeeds and the second fails, the process exits with [EXIT_FAILURE]
    after one message on [stderr] that tells which allocation failed, the
    second request not being made in the first case.  In no case is input
    read, a random number drawn or the statistics file written. *)
Theorem create_intersection_outcome (malloc_ok : nat -> bool) (nm : string)
    (w : World) :
  let m := w_malloc w in
  exists w',
    create_intersection malloc_ok nm w
    = (if malloc_ok m && malloc_ok (S m)
       then Continue (new_intersection nm) else Exited EXIT_FAILURE, w') /\
    w_out w'
    = w_out w
      ++ (if negb (malloc_ok m)
          then [EvStderr "Allocation failed for intersection"]
          else if negb (malloc_ok (S m))
               then [EvStderr "Allocation failed for lanes"] else []) /\
    w_malloc w' = (if malloc_ok m then S (S m) else S m) /\
    w_input w' = w_input w /\ w_rand w' = w_rand w /\
    w_file w' = w_file w /\ w_freed w' = w_freed w /\
    lanes (new_intersection nm) = replicate LANES zero_lane /\
    cycles (new_intersection nm) = 0 /\
    EXIT_FAILURE <> 0.
Proof.
  intros m. unfold m.
  cbv [create_intersection bind malloc emit exit ret].
  cbn [w_input w_rand w_malloc w_out w_file w_freed].
  destruct (malloc_ok (w_malloc w));
    cbn [negb andb w_input w_rand w_malloc w_out w_file w_freed].
  - destruct (malloc_ok (S (w_malloc w)));
      cbn [negb andb w_input w_rand w_malloc w_out w_file w_freed].
    + eexists. split; [reflexivity|]. by rewrite app_nil_r.
    + eexists. split; [reflexivity|]. done.
  - eexists. split; [reflexivity|]. done.
Qed.

(** X2: the name is kept up to 63 characters: the stored name is the
    longest prefix of the given one that has at most 63 characters, so a
    name of up to 63 characters, as the [Main_1] of [main], is stored
    unchanged. *)
Theorem new_intersection_name (nm : string) :
  let stored := name (new_intersection nm) in
  String.length stored = Nat.min 63 (String.length nm) /\
  (exists rest : string, nm = (stored ++ rest)%string) /\
  ((String.length nm <= 63)%nat -> stored = nm) /\
  name (new_intersection "Main_1") = "Main_1"%string.
Proof.
  cbv zeta. cbn [new_intersection name].
  destruct (substring_head 63 nm) as [Hlen Hrest].
  split; [exact Hlen|]. split; [exact Hrest|].
  split; [apply substring_whole|reflexivity].
Qed.

(** ** Green-time policy: where the cap sets in *)

(** X3: below the overflow of the formula, the green time is [MAX_GREEN]
    exactly from 18 waiting vehicles on, and an odd number of seconds
    below that.  At one vehicle per second a green is long enough for the
    whole queue exactly when at most [MAX_GREEN] vehicles wait, and it is
    never shorter than [BASE_GREEN] for a queue that is not negative. *)
Theorem calculate_green_time_threshold (w : Z) :
  GREEN_ARG_MIN <= w <= GREEN_ARG_MAX ->
  (calculate_green_time w = MAX_GREEN <-> 18 <= w) /\
  (calculate_green_time w < MAX_GREEN ->
   Z.odd (calculate_green_time w) = true) /\
  (0 <= w ->
   BASE_GREEN <= calculate_green_time w /\
   (w * VEHICLE_PASS_PER_SEC <= calculate_green_time w <-> w <= MAX_GREEN)).
Proof.
  intros Hw. rewrite calculate_green_time_exact by done.
  unfold MAX_GREEN, BASE_GREEN, VEHICLE_PASS_PER_SEC.
  split; [lia|]. split; [|lia].
  intros Hlt. replace (Z.min 40 (5 + 2 * w)) with (1 + 2 * (w + 2)) by lia.
  by rewrite Z.odd_add_mul_2.
Qed.

Lemma calculate_green_time_threshold_witness :
  calculate_green_time 18 = MAX_GREEN /\
  Z.odd (calculate_green_time 17) = true /\
  41 * VEHICLE_PASS_PER_SEC > calculate_green_time 41.
Proof.
  assert (Hrange : forall w, 0 <= w <= 41 ->
                     GREEN_ARG_MIN <= w <= GREEN_ARG_MAX)
    by (unfold GREEN_ARG_MIN, GREEN_ARG_MAX; lia).
  destruct (calculate_green_time_threshold 18) as (Hcap & _);
    [apply Hrange; lia|].
  destruct (calculate_green_time_threshold 17) as (_ & Hodd & _);
    [apply Hrange; lia|].
  destruct (calculate_green_time_threshold 41) as (_ & _ & Hlong);
    [apply Hrange; lia|].
  split; [apply Hcap; lia|]. split; [apply Hodd; vm_compute; reflexivity|].
  destruct Hlong as [_ Hlong]; [lia|].
  unfold MAX_GREEN, VEHICLE_PASS_PER_SEC in *. lia.
Defined.

(** ** The loop of [main] *)

Section MainLoop.

Variable rand_seq : nat -> Z.

(** The loop of [main] never exits: it makes its passes on the state,
    prints what [passes_out] lists and draws [LANES] numbers in each
    pass. *)
Lemma simulate_cycles_passes (n c : nat) (it : Intersection) (w : World) :
  for_loopM n c (simulate_cycle rand_seq) it w
  = (Continue (passes rand_seq n (w_rand w) it),
     {| w_input := w_input w; w_rand := w_rand w + n * LANES;
        w_malloc := w_malloc w;
        w_out := w_out w ++ passes_out rand_seq n c (w_rand w) it;
        w_file := w_file w; w_freed := w_freed w |}).
Proof.
  revert c it w. induction n as [|n IH]; intros c it w.
  - destruct w. simpl. by rewrite app_nil_r, Nat.add_0_r.
  - cbn [for_loopM passes passes_out]. unfold bind at 1.
    assert (Hbody : simulate_cycle rand_seq c it w
                    = (Continue (pass rand_seq (w_rand w) it),
                       {| w_input := w_input w; w_rand := w_rand w + LANES;
                          w_malloc := w_malloc w;
                          w_out := w_out w
                                   ++ [EvCycleStart (int_add (Z.of_nat c) 1);
                                       EvState it;
                                       EvState (pass rand_seq (w_rand w) it)];
                          w_file := w_file w; w_freed := w_freed w |})).
    { cbv [simulate_cycle bind emit print_intersection_state ret].
      rewrite random_arrival_run.
      cbn [w_input w_rand w_malloc w_out w_file w_freed].
      by rewrite <- !app_assoc. }
    rewrite Hbody, IH. cbn [w_input w_rand w_malloc w_out w_file w_freed].
    rewrite <- app_assoc. simpl app. f_equal. f_equal. unfold LANES. lia.
Qed.

(** One pass, for one of the 4 lanes: up to 40 vehicles leave, then the
    arrivals of the lane's own draw join the queue. *)
Lemma pass_lane (r j : nat) (it : Intersection) (l : Lane) :
  rand_contract rand_seq ->
  lanes it !! j = Some l -> (j < LANES)%nat -> lane_ok l ->
  vehicles l <= GREEN_ARG_MAX ->
  let a := arrival_of (rand_seq (r + j)%nat) in
  0 <= a <= 3 /\
  lanes (pass rand_seq r it) !! j
  = Some {| vehicles := Z.max (vehicles l - 40) 0 + a;
            total_wait_secs :=
              long_add (total_wait_secs l)
                (vehicles l * greens_before it j
                 + Z.max (vehicles l - 40) 0 * greens_after it j);
            vehicles_served :=
              long_add (vehicles_served l) (Z.min (vehicles l) 40) |}.
Proof.
  intros Hrand Hl Hj Hok Hmax a.
  assert (Ha : 0 <= a <= 3) by (apply arrival_of_range, Hrand).
  split; [exact Ha|].
  unfold pass, arrivals.
  rewrite (arrival_loop_lookup (fun i => arrival_of (rand_seq (r + i)%nat))).
  rewrite (cycle_lane j it l Hl Hj Hok), (green_at_lane j it l Hl).
  destruct Hok as (Hv & Hw & Hs).
  destruct (green_of_takes (vehicles l)) as [-> ->]; [lia|].
  rewrite decide_True by lia. unfold MAX_GREEN. simpl. unfold add_arrival.
  cbn [vehicles total_wait_secs vehicles_served]. fold a. do 2 f_equal.
  unfold int_add. apply wrap_int_id.
  unfold is_int, INT_MIN, INT_MAX, GREEN_ARG_MAX in *. lia.
Qed.

Lemma arrived_range (n r j : nat) :
  rand_contract rand_seq ->
  0 <= arrived rand_seq n r j <= 3 * Z.of_nat n.
Proof.
  intros Hrand. revert r. induction n as [|n IH]; intros r; [simpl; lia|].
  cbn [arrived]. specialize (IH (r + LANES)%nat).
  pose proof (arrival_of_range (rand_seq (r + j)%nat) (proj1 (Hrand _))). lia.
Qed.

(** What [n] passes make of one of the 4 lanes. *)
Lemma passes_lane (n r j : nat) (it : Intersection) (l : Lane) :
  rand_contract rand_seq ->
  lanes it !! j = Some l -> (j < LANES)%nat -> lane_ok l ->
  vehicles l <= GREEN_ARG_MAX ->
  exists l',
    lanes (passes rand_seq n r it) !! j = Some l' /\
    lane_ok l' /\
    vehicles l' <= Z.max (vehicles l - 37 * Z.of_nat n) 3 /\
    (vehicles l <= 40 -> (0 < n)%nat -> vehicles l' <= 3) /\
    (vehicles_served l + 40 * Z.of_nat n <= LONG_MAX ->
     vehicles_served l <= vehicles_served l' /\
     vehicles l' + vehicles_served l'
     = vehicles l + vehicles_served l + arrived rand_seq n r j).
Proof.
  intros Hrand. revert r it l.
  induction n as [|n IH]; intros r it l Hl Hj Hok Hmax.
  - exists l. cbn [passes arrived]. split; [done|]. split; [done|].
    repeat split; lia.
  - destruct (pass_lane r j it l Hrand Hl Hj Hok Hmax) as [Ha Hpass].
    cbv zeta in Ha, Hpass.
    set (a := arrival_of (rand_seq (r + j)%nat)) in *.
    destruct Hok as (Hv & Hw & Hs).
    destruct (IH (r + LANES)%nat _ _ Hpass Hj) as (l' & Hl' & Hok' & Hq & Hsmall & Hcons).
    { unfold lane_ok. cbn [vehicles total_wait_secs vehicles_served].
      split; [unfold INT_MAX, GREEN_ARG_MAX in *; lia|].
      split; apply wrap_long_range. }
    { cbn [vehicles]. unfold GREEN_ARG_MAX in *. lia. }
    cbn [vehicles total_wait_secs vehicles_served] in Hq, Hsmall, Hcons.
    exists l'. cbn [passes arrived]. fold a. split; [exact Hl'|].
    split; [exact Hok'|]. split; [lia|]. split.
    + intros Hle _. destruct n as [|n].
      * cbn [passes] in Hl'. rewrite Hpass in Hl'.
        injection Hl' as <-. cbn [vehicles]. lia.
      * apply Hsmall; lia.
    + intros Hroom.
      assert (Hserved : long_add (vehicles_served l) (Z.min (vehicles l) 40)
                        = vehicles_served l + Z.min (vehicles l) 40).
      { unfold long_add. apply wrap_long_id. unfold is_long in *. lia. }
      rewrite Hserved in Hcons. destruct Hcons as [Hmono Hsum]; lia.
Qed.

End MainLoop.

(** X11: in the loop of [main] the queues stay short, whatever the
    generator draws.  Take one of the 4 lanes with [0 <= vehicles <=
    1073741821] and counters within their types.  The loop runs its [n]
    passes without leaving, and the lane then holds at most
    [max (vehicles - 37 n) 3] vehicles and not less than 0: a pass takes
    40 vehicles off a long queue and gives at most 3 back, and a queue of
    up to 40 is down to the last arrivals, at most 3, after every pass.
    No counter of the lane leaves the range of its type. *)
Theorem main_loop_queue_bound (rand_seq : nat -> Z) (n c j : nat)
    (it : Intersection) (w : World) (l : Lane) :
  rand_contract rand_seq ->
  lanes it !! j = Some l -> (j < LANES)%nat -> lane_ok l ->
  vehicles l <= GREEN_ARG_MAX ->
  exists it' w' l',
    for_loopM n c (simulate_cycle rand_seq) it w = (Continue it', w') /\
    lanes it' !! j = Some l' /\
    0 <= vehicles l' <= Z.max (vehicles l - 37 * Z.of_nat n) 3 /\
    (vehicles l <= 40 -> (0 < n)%nat -> vehicles l' <= 3) /\
    lane_ok l'.
Proof.
  intros Hrand Hl Hj Hok Hmax. rewrite simulate_cycles_passes.
  destruct (passes_lane rand_seq n (w_rand w) j it l Hrand Hl Hj Hok Hmax)
    as (l' & Hl' & Hok' & Hq & Hsmall & _).
  eexists _, _, l'. split; [reflexivity|]. split; [exact Hl'|].
  destruct Hok' as (Hv' & Hrest). split; [lia|]. split; [exact Hsmall|].
  by split.
Qed.

Lemma main_loop_queue_bound_witness :
  exists it' w' l',
    for_loopM 2 0 (simulate_cycle sample_rand) long_queue (initial_world [])
    = (Continue it', w') /\
    lanes it' !! 3%nat = Some l' /\
    0 <= vehicles l' <= 99999926.
Proof.
  destruct (main_loop_queue_bound sample_rand 2 0 3 long_queue
              (initial_world [])
              {| vehicles := 100000000; total_wait_secs := 0;
                 vehicles_served := 0 |})
    as (it' & w' & l' & Hrun & Hl' & Hq & _).
  - exact sample_rand_contract.
  - reflexivity.
  - unfold LANES. lia.
  - concrete_lane_ok.
  - vm_compute. discriminate.
  - exists it', w', l'. split; [exact Hrun|]. split; [exact Hl'|].
    cbn [vehicles] in Hq. lia.
Defined.

(** X12: no vehicle is lost or made up in the loop of [main].  For one of
    the 4 lanes as in X11, with room for [40 n] more served vehicles in
    its [long] counter: after [n] passes the vehicles waiting and the
    vehicles served add up to those of the start plus the arrivals the
    lane was given, which are between 0 and [3 n]; the count of served
    vehicles never goes down. *)
Theorem main_loop_conservation (rand_seq : nat -> Z) (n c j : nat)
    (it : Intersection) (w : World) (l : Lane) :
  rand_contract rand_seq ->
  lanes it !! j = Some l -> (j < LANES)%nat -> lane_ok l ->
  vehicles l <= GREEN_ARG_MAX ->
  vehicles_served l + 40 * Z.of_nat n <= LONG_MAX ->
  exists it' w' l',
    for_loopM n c (simulate_cycle rand_seq) it w = (Continue it', w') /\
    lanes it' !! j = Some l' /\
    vehicles l' + vehicles_served l'
    = vehicles l + vehicles_served l + arrived rand_seq n (w_rand w) j /\
    0 <= arrived rand_seq n (w_rand w) j <= 3 * Z.of_nat n /\
    vehicles_served l <= vehicles_served l'.
Proof.
  intros Hrand Hl Hj Hok Hmax Hroom. rewrite simulate_cycles_passes.
  destruct (passes_lane rand_seq n (w_rand w) j it l Hrand Hl Hj Hok Hmax)
    as (l' & Hl' & _ & _ & _ & Hcons).
  destruct (Hcons Hroom) as [Hmono Hsum].
  eexists _, _, l'. split; [reflexivity|]. split; [exact Hl'|].
  split; [exact Hsum|]. split; [by apply arrived_range|exact Hmono].
Qed.

Lemma main_loop_conservation_witness :
  exists it' w' l',
    for_loopM 2 0 (simulate_cycle sample_rand) scenario (initial_world [])
    = (Continue it', w') /\
    lanes it' !! 2%nat = Some l' /\
    vehicles l' + vehicles_served l' = 5 + arrived sample_rand 2 0 2.
Proof.
  destruct (main_loop_conservation sample_rand 2 0 2 scenario
              (initial_world [])
              {| vehicles := 5; total_wait_secs := 0; vehicles_served := 0 |})
    as (it' & w' & l' & Hrun & Hl' & Hsum & _).
  - exact sample_rand_contract.
  - reflexivity.
  - unfold LANES. lia.
  - concrete_lane_ok.
  - vm_compute. discriminate.
  - vm_compute. discriminate.
  - exists it', w', l'. split; [exact Hrun|]. split; [exact Hl'|].
    rewrite Hsum. reflexivity.
Defined.

(** ** The driver, from start to end *)

Lemma passes_frame (rand_seq : nat -> Z) (n r : nat) (it : Intersection) :
  is_int (cycles it) ->
  name (passes rand_seq n r it) = name it /\
  cycles (passes rand_seq n r it) = int_add (cycles it) (Z.of_nat n) /\
  length (lanes (passes rand_seq n r it)) = length (lanes it).
Proof.
  revert r it. induction n as [|n IH]; intros r it Hint.
  - cbn [passes]. split; [done|]. split; [|done].
    unfold int_add. rewrite Z.add_0_r. symmetry. by apply wrap_int_id.
  - cbn [passes].
    destruct (arrival_loop_frame
                (fun i => arrival_of (rand_seq (r + i)%nat)) LANES 0
                (run_one_cycle it)) as (Hn & Hc & Hl).
    cbv zeta in Hn, Hc, Hl. fold (arrivals rand_seq r (run_one_cycle it)) in *.
    fold (pass rand_seq r it) in *.
    destruct (run_one_cycle_keeps it) as [Hn1 Hl1].
    rewrite cycles_run_one_cycle in Hc.
    destruct (IH (r + LANES)%nat (pass rand_seq r it)) as (-> & -> & ->).
    { rewrite Hc. apply wrap_int_range. }
    rewrite Hn, Hc, Hl, Hn1, Hl1. split; [done|]. split; [|done].
    unfold int_add. rewrite wrap_add_l. f_equal. lia.
Qed.

Lemma cycle_starts_passes_out (rand_seq : nat -> Z) (n c r : nat)
    (it : Intersection) :
  Z.of_nat c + Z.of_nat n <= INT_MAX ->
  cycle_starts (passes_out rand_seq n c r it)
  = (fun i => Z.of_nat i + 1) <$> seq c n.
Proof.
  revert c r it. induction n as [|n IH]; intros c r it Hc; [done|].
  cbn [passes_out seq]. unfold cycle_starts in *. cbn [omap list_omap]. 
  rewrite fmap_cons. f_equal.
  - unfold int_add. apply wrap_int_id. unfold is_int, INT_MIN, INT_MAX in *. lia.
  - apply IH. lia.
Qed.

Lemma passes_S (rand_seq : nat -> Z) (n r : nat) (it : Intersection) :
  passes rand_seq (S n) r it
  = passes rand_seq n (r + LANES) (pass rand_seq r it).
Proof. reflexivity. Qed.

Lemma passes_0 (rand_seq : nat -> Z) (r : nat) (it : Intersection) :
  passes rand_seq 0 r it = it.
Proof. reflexivity. Qed.

Lemma flat_map_seq_S {A : Type} (f : nat -> list A) (n : nat) :
  flat_map f (seq 0 (S n)) = f 0%nat ++ flat_map (fun k => f (S k)) (seq 0 n).
Proof.
  cbn [seq flat_map]. f_equal.
  by rewrite <- seq_shift, !flat_map_concat_map, map_map.
Qed.

Lemma states_printed_cycle (c : Z) (a b : Intersection) (out : list Event) :
  states_printed (EvCycleStart c :: EvState a :: EvState b :: out)
  = a :: b :: states_printed out.
Proof. reflexivity. Qed.

Lemma states_printed_passes_out (rand_seq : nat -> Z) (n c r : nat)
    (it : Intersection) :
  states_printed (passes_out rand_seq n c r it)
  = flat_map (fun k => [passes rand_seq k r it; passes rand_seq (S k) r it])
      (seq 0 n).
Proof.
  revert c r it. induction n as [|n IH]; intros c r it; [done|].
  cbn [passes_out]. rewrite states_printed_cycle, IH, flat_map_seq_S.
  rewrite (passes_S rand_seq 0 r it), !passes_0. cbn [app].
  apply (f_equal (cons it)), (f_equal (cons (pass rand_seq r it))).
  apply flat_map_ext. intros k.
  by rewrite (passes_S rand_seq (S k) r it), (passes_S rand_seq k r it).
Qed.

Section WholeRun.

Variable rand_seq : nat -> Z.
Variable malloc_ok : nat -> bool.
Variable fopen_ok : string -> bool.

(** A run with the memory allocated, four lane counts and a positive
    number of cycles, from start to end. *)
Lemma run_main_valid (v0 v1 v2 v3 c : Z) (tail : list (option Z)) :
  malloc_ok 0%nat = true -> malloc_ok 1%nat = true -> 0 < c ->
  let it0 := seeded [Z.max 0 v0; Z.max 0 v1; Z.max 0 v2; Z.max 0 v3] in
  let n := Z.to_nat c in
  let it' := passes rand_seq n 0 it0 in
  run_main rand_seq malloc_ok fopen_ok
    (initial_world (Some v0 :: Some v1 :: Some v2 :: Some v3 :: Some c :: tail))
  = (0,
     {| w_input := tail; w_rand := n * LANES; w_malloc := 2;
        w_out := EvBanner :: lane_prompts
                 ++ EvAskCycles :: passes_out rand_seq n 0 0 it0
                 ++ [EvFinished; EvState it';
                     if fopen_ok "traffic_stats.txt"
                     then EvSaved "traffic_stats.txt" else EvStderr "fopen"];
        w_file := if fopen_ok "traffic_stats.txt" then [summarize it'] else [];
        w_freed := [it'] |}).
Proof.
  intros Hm0 Hm1 Hc it0 n it'. unfold run_main. rewrite main_unfold.
  cbv [create_intersection bind malloc emit exit ret initial_world negb
       w_input w_rand w_malloc w_out w_file w_freed].
  rewrite Hm0, Hm1.
  rewrite (input_vehicle_counts_run _ _ v0 v1 v2 v3 (Some c :: tail))
    by reflexivity.
  rewrite seed_new_intersection. fold it0.
  cbv [main_after_input bind scanf_int emit].
  cbn [w_input w_rand w_malloc w_out w_file w_freed].
  destruct (Z.leb_spec c 0); [lia|].
  rewrite simulate_cycles_passes.
  cbn [w_input w_rand w_malloc w_out w_file w_freed]. fold n. fold it'.
  cbv [bind emit print_intersection_state save_statistics append_record
       destroy_intersection ret].
  cbn [w_input w_rand w_malloc w_out w_file w_freed].
  destruct (fopen_ok "traffic_stats.txt");
    cbn [negb w_input w_rand w_malloc w_out w_file w_freed app];
    rewrite <- ?app_assoc; reflexivity.
Qed.

End WholeRun.

Lemma length_flat_map_pairs {A : Type} (f g : nat -> A) (ks : list nat) :
  length (flat_map (fun k => [f k; g k]) ks) = (2 * length ks)%nat.
Proof. induction ks as [|k ks IH]; [done|]. cbn [flat_map app length]. lia. Qed.

(** X13: when one of the two allocations of [create_intersection] fails,
    the process ends with [EXIT_FAILURE] before anything else happens: the
    only output is the message that tells which allocation failed; no
    banner or prompt is written, no input is read, no random number is
    drawn and no statistics are written. *)
Theorem run_main_allocation_failure (rand_seq : nat -> Z)
    (malloc_ok : nat -> bool) (fopen_ok : string -> bool)
    (input : list (option Z)) :
  malloc_ok 0%nat && malloc_ok 1%nat = false ->
  run_main rand_seq malloc_ok fopen_ok (initial_world input)
  = (EXIT_FAILURE,
     {| w_input := input; w_rand := 0;
        w_malloc := if malloc_ok 0%nat then 2 else 1;
        w_out := [EvStderr (if malloc_ok 0%nat
                            then "Allocation failed for lanes"
                            else "Allocation failed for intersection")];
        w_file := []; w_freed := [] |}).
Proof.
  intros Hfail. unfold run_main. rewrite main_unfold.
  cbv [create_intersection bind malloc emit exit ret initial_world negb
       w_input w_rand w_malloc w_out w_file w_freed].
  destruct (malloc_ok 0%nat); [destruct (malloc_ok 1%nat); [done|]|];
    reflexivity.
Qed.

Lemma run_main_allocation_failure_witness :
  run_main sample_rand (fun k => Nat.eqb k 0) (fun _ => true)
    (initial_world [Some 2; Some 0; Some 5; Some 1; Some 1])
  = (EXIT_FAILURE,
     {| w_input := [Some 2; Some 0; Some 5; Some 1; Some 1]; w_rand := 0;
        w_malloc := 2;
        w_out := [EvStderr "Allocation failed for lanes"];
        w_file := []; w_freed := [] |}).
Proof.
  apply (run_main_allocation_failure sample_rand (fun k => Nat.eqb k 0)).
  reflexivity.
Defined.

(** X14: when the input holds fewer than 4 numbers before it ends or
    shows something that is no number, the process ends with
    [EXIT_FAILURE] at the prompt of the first lane that gets none.  The
    banner, the request and the prompts up to that lane have been
    written, then the message [Invalid input. Exiting.]; the offending
    input is left unread.  No cycle has run, the number of cycles has not
    been asked for, no statistics are written, and the intersection is
    not released before the exit. *)
Theorem run_main_invalid_lane_input (rand_seq : nat -> Z)
    (malloc_ok : nat -> bool) (fopen_ok : string -> bool)
    (vs : list Z) (rest : list (option Z)) :
  malloc_ok 0%nat = true -> malloc_ok 1%nat = true ->
  (length vs < LANES)%nat -> no_number rest ->
  run_main rand_seq malloc_ok fopen_ok (initial_world ((Some <$> vs) ++ rest))
  = (EXIT_FAILURE,
     {| w_input := rest; w_rand := 0; w_malloc := 2;
        w_out := EvBanner :: EvAskLanes 4
                 :: (EvAskLane <$> ((fun i => Z.of_nat i + 1)
                                      <$> seq 0 (S (length vs))))
                 ++ [EvStderr "Invalid input. Exiting."];
        w_file := []; w_freed := [] |}).
Proof.
  intros Hm0 Hm1 Hlen Hrest. unfold run_main. rewrite main_unfold.
  cbv [create_intersection bind malloc emit exit ret initial_world negb
       w_input w_rand w_malloc w_out w_file w_freed].
  rewrite Hm0, Hm1.
  cbv [input_vehicle_counts LANES for_loopM bind scanf_int ret emit exit
       w_input w_rand w_malloc w_out w_file w_freed].
  unfold LANES in Hlen.
  destruct vs as [|v0 [|v1 [|v2 [|v3 vs]]]]; [| | | |simpl in Hlen; lia];
    destruct rest as [|[c|] rest]; try done.
Qed.

Lemma run_main_invalid_lane_input_witness :
  run_main sample_rand (fun _ => true) (fun _ => true)
    (initial_world [Some 2; Some 0; None; Some 1; Some 1])
  = (EXIT_FAILURE,
     {| w_input := [None; Some 1; Some 1]; w_rand := 0; w_malloc := 2;
        w_out := [EvBanner; EvAskLanes 4; EvAskLane 1; EvAskLane 2;
                  EvAskLane 3; EvStderr "Invalid input. Exiting."];
        w_file := []; w_freed := [] |}).
Proof.
  apply (run_main_invalid_lane_input sample_rand (fun _ => true)
           (fun _ => true) [2; 0] [None; Some 1; Some 1]).
  - reflexivity.
  - reflexivity.
  - unfold LANES. simpl. lia.
  - exact I.
Defined.

(** X15: a run with four lane counts and a positive number [c] of cycles
    returns 0 and releases the intersection once, whether the statistics
    file can be opened or not.  If it can, exactly one record is appended,
    the summary of the state that was printed last and is released, named
    [Main_1] and counting [c] cycles, and the output ends with the notice
    that the statistics were saved; if it cannot, nothing is appended and
    the output ends with the error of [fopen].  The input after the five
    numbers is not read. *)
Theorem run_main_statistics (rand_seq : nat -> Z) (malloc_ok : nat -> bool)
    (fopen_ok : string -> bool) (v0 v1 v2 v3 c : Z)
    (tail : list (option Z)) :
  malloc_ok 0%nat = true -> malloc_ok 1%nat = true -> 0 < c <= INT_MAX ->
  exists it' w',
    run_main rand_seq malloc_ok fopen_ok
      (initial_world
         (Some v0 :: Some v1 :: Some v2 :: Some v3 :: Some c :: tail))
    = (0, w') /\
    w_freed w' = [it'] /\
    last (states_printed (w_out w')) = Some it' /\
    w_file w'
    = (if fopen_ok "traffic_stats.txt"%string then [summarize it'] else []) /\
    last (w_out w')
    = Some (if fopen_ok "traffic_stats.txt"%string
            then EvSaved "traffic_stats.txt" else EvStderr "fopen") /\
    st_name (summarize it') = "Main_1"%string /\
    st_cycles (summarize it') = c /\
    w_input w' = tail.
Proof.
  intros Hm0 Hm1 Hc.
  rewrite (run_main_valid rand_seq malloc_ok fopen_ok v0 v1 v2 v3 c tail)
    by (done || lia).
  cbv zeta.
  set (it0 := seeded [Z.max 0 v0; Z.max 0 v1; Z.max 0 v2; Z.max 0 v3]).
  destruct (passes_frame rand_seq (Z.to_nat c) 0 it0) as (Hname & Hcyc & _).
  { unfold is_int, INT_MIN, INT_MAX. simpl. lia. }
  set (it' := passes rand_seq (Z.to_nat c) 0 it0) in *. clearbody it'.
  eexists it', _. split; [reflexivity|].
  cbn [w_input w_rand w_malloc w_out w_file w_freed].
  split; [done|]. split.
  { unfold states_printed. rewrite app_comm_cons, omap_app.
    change (EvAskCycles :: ?l ++ ?t) with ((EvAskCycles :: l) ++ t).
    rewrite omap_app.
    destruct (fopen_ok "traffic_stats.txt"%string); cbn [omap list_omap];
      by rewrite !app_assoc, last_snoc. }
  split; [done|]. split.
  { rewrite app_comm_cons.
    change (EvAskCycles :: ?l ++ ?t) with ((EvAskCycles :: l) ++ t).
    change [EvFinished; EvState it'; ?e] with ([EvFinished; EvState it'] ++ [e]).
    by rewrite !app_assoc, last_snoc. }
  rewrite summarize_unfold. cbn [st_name st_cycles].
  split; [exact Hname|]. split; [|done].
  rewrite Hcyc. simpl cycles. rewrite Z2Nat.id by lia.
  unfold int_add. apply wrap_int_id. unfold is_int, INT_MIN, INT_MAX in *. lia.
Qed.

Lemma run_main_statistics_witness :
  exists it' w',
    run_main sample_rand (fun _ => true) (fun _ => true)
      (initial_world [Some 2; Some 0; Some 5; Some 1; Some 2]) = (0, w') /\
    w_file w' = [summarize it'] /\ st_cycles (summarize it') = 2.
Proof.
  destruct (run_main_statistics sample_rand (fun _ => true) (fun _ => true)
              2 0 5 1 2 [])
    as (it' & w' & Hrun & _ & _ & Hfile & _ & _ & Hcyc & _).
  - reflexivity.
  - reflexivity.
  - unfold INT_MAX. lia.
  - exists it', w'. split; [exact Hrun|]. split; [exact Hfile|exact Hcyc].
Defined.

(** X16: what a run of [c] cycles shows on the terminal.  The cycle
    banners are numbered 1, 2, ..., [c], in this order.  [2 c + 1] states
    are printed: for each cycle the state it starts from and the state it
    leaves, arrivals included, and at the end the final state once more;
    the first state printed is the one the input gave, negative counts
    read as 0, and the state a cycle starts from is the state the cycle
    before it left. *)
Theorem run_main_output (rand_seq : nat -> Z) (malloc_ok : nat -> bool)
    (fopen_ok : string -> bool) (v0 v1 v2 v3 c : Z)
    (tail : list (option Z)) :
  malloc_ok 0%nat = true -> malloc_ok 1%nat = true -> 0 < c <= INT_MAX ->
  let it0 := seeded [Z.max 0 v0; Z.max 0 v1; Z.max 0 v2; Z.max 0 v3] in
  let n := Z.to_nat c in
  exists w',
    run_main rand_seq malloc_ok fopen_ok
      (initial_world
         (Some v0 :: Some v1 :: Some v2 :: Some v3 :: Some c :: tail))
    = (0, w') /\
    cycle_starts (w_out w') = (fun i => Z.of_nat i + 1) <$> seq 0 n /\
    states_printed (w_out w')
    = flat_map
        (fun k => [passes rand_seq k 0 it0; passes rand_seq (S k) 0 it0])
        (seq 0 n)
      ++ [passes rand_seq n 0 it0] /\
    length (states_printed (w_out w')) = (2 * n + 1)%nat /\
    head (states_printed (w_out w')) = Some it0.
Proof.
  intros Hm0 Hm1 Hc it0 n.
  rewrite (run_main_valid rand_seq malloc_ok fopen_ok v0 v1 v2 v3 c tail)
    by (done || lia).
  cbv zeta. fold it0. fold n.
  set (it' := passes rand_seq n 0 it0).
  eexists. split; [reflexivity|].
  cbn [w_input w_rand w_malloc w_out w_file w_freed].
  assert (Hstates :
            states_printed
              (EvBanner :: lane_prompts
               ++ EvAskCycles :: passes_out rand_seq n 0 0 it0
               ++ [EvFinished; EvState it';
                   if fopen_ok "traffic_stats.txt"%string
                   then EvSaved "traffic_stats.txt" else EvStderr "fopen"])
            = flat_map
                (fun k => [passes rand_seq k 0 it0; passes rand_seq (S k) 0 it0])
                (seq 0 n) ++ [it']).
  { rewrite <- states_printed_passes_out with (c := 0%nat).
    unfold states_printed. rewrite app_comm_cons, omap_app.
    change (EvAskCycles :: ?l ++ ?t) with ((EvAskCycles :: l) ++ t).
    rewrite omap_app.
    by destruct (fopen_ok "traffic_stats.txt"%string). }
  split.
  { rewrite <- (cycle_starts_passes_out rand_seq n 0 0 it0)
      by (unfold n; lia).
    unfold cycle_starts. rewrite app_comm_cons, omap_app.
    change (EvAskCycles :: ?l ++ ?t) with ((EvAskCycles :: l) ++ t).
    rewrite omap_app.
    destruct (fopen_ok "traffic_stats.txt"%string); cbn [omap list_omap app];
      by rewrite app_nil_r. }
  split; [exact Hstates|]. rewrite Hstates. split.
  { rewrite length_app, length_flat_map_pairs, length_seq. simpl. lia. }
  destruct n as [|n'] eqn:Hn; [lia|].
  rewrite flat_map_seq_S. by rewrite passes_0.
Qed.

Lemma run_main_output_witness :
  exists w',
    run_main sample_rand (fun _ => true) (fun _ => true)
      (initial_world [Some 2; Some 0; Some 5; Some 1; Some 2]) = (0, w') /\
    cycle_starts (w_out w') = [1; 2] /\
    length (states_printed (w_out w')) = 5%nat /\
    head (states_printed (w_out w')) = Some scenario.
Proof.
  destruct (run_main_output sample_rand (fun _ => true) (fun _ => true)
              2 0 5 1 2 [])
    as (w' & Hrun & Hstarts & _ & Hlen & Hhead).
  - reflexivity.
  - reflexivity.
  - unfold INT_MAX. lia.
  - exists w'. split; [exact Hrun|]. split; [exact Hstarts|].
    split; [exact Hlen|exact Hhead].
Defined.

(** ** Statistics of a run *)

Lemma arrivals_lane_at (rand_seq : nat -> Z) (r j : nat) (it : Intersection) :
  vehicles_served (lane_at (arrivals rand_seq r it) j)
  = vehicles_served (lane_at it j) /\
  total_wait_secs (lane_at (arrivals rand_seq r it) j)
  = total_wait_secs (lane_at it j).
Proof.
  unfold lane_at, arrivals.
  rewrite (arrival_loop_lookup (fun i => arrival_of (rand_seq (r + i)%nat))).
  destruct (lanes it !! j) as [l|]; [|done]. simpl.
  by case_decide.
Qed.

(** X17: the arrivals between the cycles do not show in the statistics:
    the summary of the intersection is the same after
    [random_arrival_between_cycles] as before it, whatever is drawn.  So
    the record that [main] appends tells of the cycles alone, although
    the state printed last includes the arrivals drawn after the last
    cycle. *)
Theorem random_arrival_keeps_summary (rand_seq : nat -> Z)
    (it : Intersection) (w : World) :
  exists it' w',
    random_arrival_between_cycles rand_seq it w = (Continue it', w') /\
    summarize it' = summarize it /\
    w_file w' = w_file w /\ w_out w' = w_out w.
Proof.
  rewrite random_arrival_run. eexists _, _. split; [reflexivity|].
  cbn [w_file w_out]. split; [|done].
  fold (arrivals rand_seq (w_rand w) it).
  rewrite !summarize_unfold. cbv zeta.
  destruct (arrival_loop_frame
              (fun i => arrival_of (rand_seq (w_rand w + i)%nat)) LANES 0 it)
    as (Hn & Hc & _).
  cbv zeta in Hn, Hc. fold (arrivals rand_seq (w_rand w) it) in Hn, Hc.
  rewrite Hn, Hc.
  destruct (arrivals_lane_at rand_seq (w_rand w) 0 it) as [-> ->].
  destruct (arrivals_lane_at rand_seq (w_rand w) 1 it) as [-> ->].
  destruct (arrivals_lane_at rand_seq (w_rand w) 2 it) as [-> ->].
  destruct (arrivals_lane_at rand_seq (w_rand w) 3 it) as [-> ->].
  reflexivity.
Qed.

(** X18: the record of a run accounts for every vehicle.  With lane
    counts of at most 1073741821 and any generator that keeps the
    contract of [rand], the record appended after [c] cycles has
    [total_served] equal to the vehicles entered (negative counts read as
    0) plus all the arrivals drawn, less the vehicles still waiting in
    the state printed last. *)
Theorem run_main_total_served (rand_seq : nat -> Z) (malloc_ok : nat -> bool)
    (fopen_ok : string -> bool) (v0 v1 v2 v3 c : Z)
    (tail : list (option Z)) :
  rand_contract rand_seq ->
  malloc_ok 0%nat = true -> malloc_ok 1%nat = true ->
  fopen_ok "traffic_stats.txt"%string = true ->
  0 < c <= INT_MAX ->
  v0 <= GREEN_ARG_MAX -> v1 <= GREEN_ARG_MAX ->
  v2 <= GREEN_ARG_MAX -> v3 <= GREEN_ARG_MAX ->
  let n := Z.to_nat c in
  exists it' w',
    run_main rand_seq malloc_ok fopen_ok
      (initial_world
         (Some v0 :: Some v1 :: Some v2 :: Some v3 :: Some c :: tail))
    = (0, w') /\
    w_file w' = [summarize it'] /\
    last (states_printed (w_out w')) = Some it' /\
    total_served (summarize it') + sum_lanes vehicles it'
    = Z.max 0 v0 + Z.max 0 v1 + Z.max 0 v2 + Z.max 0 v3
      + (arrived rand_seq n 0 0 + arrived rand_seq n 0 1
         + arrived rand_seq n 0 2 + arrived rand_seq n 0 3).
Proof.
  intros Hrand Hm0 Hm1 Hfo Hc H0 H1 H2 H3 n.
  rewrite (run_main_valid rand_seq malloc_ok fopen_ok v0 v1 v2 v3 c tail)
    by (done || lia).
  cbv zeta. fold n. rewrite Hfo.
  set (it0 := seeded [Z.max 0 v0; Z.max 0 v1; Z.max 0 v2; Z.max 0 v3]).
  assert (Hlane : forall j v,
            (j < LANES)%nat -> 0 <= v <= GREEN_ARG_MAX ->
            lanes it0 !! j
            = Some {| vehicles := v; total_wait_secs := 0;
                      vehicles_served := 0 |} ->
            exists l',
              lanes (passes rand_seq n 0 it0) !! j = Some l' /\
              0 <= vehicles l' /\
              0 <= vehicles_served l' <= LONG_MAX / 4 /\
              vehicles l' + vehicles_served l' = v + arrived rand_seq n 0 j).
  { intros j v Hj Hv Hl.
    destruct (passes_lane rand_seq n 0 j it0 _ Hrand Hl Hj)
      as (l' & Hl' & Hok' & _ & _ & Hcons).
    { unfold lane_ok, is_long, INT_MAX, LONG_MIN, LONG_MAX, GREEN_ARG_MAX in *.
      cbn [vehicles total_wait_secs vehicles_served]. lia. }
    { cbn [vehicles]. lia. }
    cbn [vehicles vehicles_served] in Hcons.
    destruct Hcons as [Hmono Hsum].
    { unfold LONG_MAX, INT_MAX, n in *. lia. }
    pose proof (arrived_range rand_seq n 0 j Hrand) as Harr.
    destruct Hok' as (Hv' & _).
    exists l'. split; [exact Hl'|]. split; [lia|]. split; [|lia].
    change (LONG_MAX / 4) with 2305843009213693951.
    unfold GREEN_ARG_MAX, INT_MAX, n in *. lia. }
  destruct (Hlane 0%nat (Z.max 0 v0)) as (l0 & Hl0 & Hq0 & Hs0 & Hsum0);
    [unfold LANES; lia|unfold GREEN_ARG_MAX in *; lia|reflexivity|].
  destruct (Hlane 1%nat (Z.max 0 v1)) as (l1 & Hl1 & Hq1 & Hs1 & Hsum1);
    [unfold LANES; lia|unfold GREEN_ARG_MAX in *; lia|reflexivity|].
  destruct (Hlane 2%nat (Z.max 0 v2)) as (l2 & Hl2 & Hq2 & Hs2 & Hsum2);
    [unfold LANES; lia|unfold GREEN_ARG_MAX in *; lia|reflexivity|].
  destruct (Hlane 3%nat (Z.max 0 v3)) as (l3 & Hl3 & Hq3 & Hs3 & Hsum3);
    [unfold LANES; lia|unfold GREEN_ARG_MAX in *; lia|reflexivity|].
  clear Hlane.
  set (it' := passes rand_seq n 0 it0) in *. clearbody it'.
  exists it'. eexists. split; [reflexivity|].
  cbn [w_input w_rand w_malloc w_out w_file w_freed].
  split; [done|]. split.
  { unfold states_printed. rewrite app_comm_cons, omap_app.
    change (EvAskCycles :: ?l ++ ?t) with ((EvAskCycles :: l) ++ t).
    rewrite omap_app. cbn [omap list_omap].
    by rewrite !app_assoc, last_snoc. }
  rewrite summarize_unfold. cbv zeta. cbn [total_served].
  rewrite long_add_sum. unfold sum_lanes, lane_at.
  rewrite Hl0, Hl1, Hl2, Hl3. simpl.
  change (LONG_MAX / 4) with 2305843009213693951 in *.
  rewrite wrap_long_id by (unfold is_long, LONG_MIN, LONG_MAX; lia).
  lia.
Qed.

Lemma run_main_total_served_witness :
  exists it' w',
    run_main sample_rand (fun _ => true) (fun _ => true)
      (initial_world [Some 2; Some 0; Some 5; Some 1; Some 2]) = (0, w') /\
    w_file w' = [summarize it'] /\
    total_served (summarize it') + sum_lanes vehicles it'
    = 8 + (arrived sample_rand 2 0 0 + arrived sample_rand 2 0 1
           + arrived sample_rand 2 0 2 + arrived sample_rand 2 0 3).
Proof.
  destruct (run_main_total_served sample_rand (fun _ => true) (fun _ => true)
              2 0 5 1 2 [])
    as (it' & w' & Hrun & Hfile & _ & Hsum).
  - exact sample_rand_contract.
  - reflexivity.
  - reflexivity.
  - reflexivity.
  - unfold INT_MAX. lia.
  - vm_compute. discriminate.
  - vm_compute. discriminate.
  - vm_compute. discriminate.
  - vm_compute. discriminate.
  - exists it', w'. split; [exact Hrun|]. split; [exact Hfile|exact Hsum].
Defined.
